(** * Incremental ingestion and curated merge: a model of [scripts/ingest_job.py]

    The development embeds [IngestJob] (paginated fetch, bootstrap versus
    incremental mode, safety lag, raw archive, upsert into the curated
    table, the run loop) together with the [R2FS] storage helper of
    [scripts/r2_storage.py], and states the properties of the pipeline
    over that embedding.

    Conventions.
    - A Python exception is a value of [exn]; a call that may raise
      returns a [result].
    - The job works on a [World]: the mounted bucket, the local scratch
      directory, the logger, the requests sent to the remote source, the
      wall clock.  Effects are written in the monad [M]; an exception
      keeps every effect that happened before it.
    - [while True] of the paginated fetch is unrolled with a fuel
      argument; running out of fuel is the answer [None], never a
      result.
    - The bucket is a map from object keys to files.  A key is the path
      relative to the mount as [_norm_rel] leaves it; directories are
      implied by the keys.  A file holds the value that was serialised
      into it, or is torn when a write on it failed half-way.
    - pandas, numpy, [datetime] and the HTTP client are libraries of the
      program.  What the job relies on is modelled from their documented
      behaviour: missing cells ([None], NaN) are all alike and equal to
      one another for [drop_duplicates], [sort_values] puts them last and
      raises on a column mixing [int] and [str], the sort is not stable;
      the remote source, the sort and the timestamp parser are
      parameters of the job. *)

From Stdlib Require Import ZArith String Ascii List Lia.
From Stdlib Require Import Sorting.Sorted Sorting.Permutation.
From stdpp Require Import base option list gmap strings sorting.

Local Open Scope string_scope.
Local Open Scope list_scope.

(** ** Exceptions and results *)

Inductive exn : Type :=
  | ValueError
  | TypeError
  | AttributeError
  | OverflowError
  | OSError
  | JSONDecodeError
  | HTTPStatusError
  | ExtractorError.

Inductive result (A : Type) : Type :=
  | Ok (a : A)
  | Raise (e : exn).
Arguments Ok {A} a.
Arguments Raise {A} e.

(** ** Cells, rows and data frames

    A row is the Python dict of one record.  Cell values are JSON
    scalars; [VNull] is JSON null / Python [None], which pandas treats
    as a missing cell exactly like an absent key. *)

Inductive value : Type :=
  | VNull
  | VInt (z : Z)
  | VStr (s : string).

#[global] Instance value_eq_dec : EqDecision value.
Proof. solve_decision. Defined.

Abbreviation row := (gmap string value).

(** The cell of row [r] in column [c]: [None] is pandas' NA. *)
Definition cell (c : string) (r : row) : option value :=
  match r !! c with
  | Some VNull => None
  | o => o
  end.

(** Python's [<=] on two cells of the same type.  On an [int] and a
    [str] Python raises [TypeError]; [sort_values] below raises before
    the order is ever consulted on such a pair, and the value given here
    for mixed pairs only makes the relation total. *)
Definition value_leb (a b : value) : bool :=
  match a, b with
  | VNull, _ => true
  | _, VNull => false
  | VInt x, VInt y => (x <=? y)%Z
  | VInt _, VStr _ => true
  | VStr _, VInt _ => false
  | VStr x, VStr y => String.leb x y
  end.

Definition value_le (a b : value) : Prop := value_leb a b = true.

Definition same_type (a b : value) : bool :=
  match a, b with
  | VNull, VNull => true
  | VInt _, VInt _ => true
  | VStr _, VStr _ => true
  | _, _ => false
  end.

(** A column can be ordered when all its non-NA cells have one type. *)
Definition comparable (vs : list value) : bool :=
  match vs with
  | [] => true
  | v :: vs' => forallb (same_type v) vs'
  end.

(** A frame: its rows in index order, and its column labels.  The labels
    are [df_schema] together with every key some row carries (see
    [columns]); [df_schema] alone records labels whose cells are all NA,
    which a parquet file or an in-place operation can leave behind. *)
Record DataFrame : Type := mkDataFrame {
  df_schema : gset string;
  df_records : list row
}.

Definition columns (df : DataFrame) : gset string :=
  df_schema df ∪ ⋃ (dom <$> df_records df).

(** [pd.DataFrame(data)] for a list of dicts, and [pd.DataFrame()]. *)
Definition pd_DataFrame (data : list row) : DataFrame :=
  {| df_schema := ∅; df_records := data |}.

(** [df.empty]: true when either axis has length 0. *)
Definition df_empty (df : DataFrame) : bool :=
  bool_decide (df_records df = []) || bool_decide (columns df = ∅).

(** [pd.concat(dfs, ignore_index=True)]: rows of the frames in order,
    union of the columns. *)
Definition pd_concat (dfs : list DataFrame) : DataFrame :=
  {| df_schema := ⋃ (columns <$> dfs); df_records := dfs ≫= df_records |}.

(** An in-place operation replaces the rows and keeps the labels. *)
Definition with_records (df : DataFrame) (rs : list row) : DataFrame :=
  {| df_schema := columns df; df_records := rs |}.

(** [df.drop_duplicates(subset=[c], keep='last')] on the rows: a row stays
    when no later row has the same cell in [c]; two NA cells count as the
    same. *)
Fixpoint drop_duplicates_last (c : string) (rs : list row) : list row :=
  match rs with
  | [] => []
  | r :: rs' =>
      if bool_decide (cell c r ∈ cell c <$> rs')
      then drop_duplicates_last c rs'
      else r :: drop_duplicates_last c rs'
  end.

Definition drop_duplicates (c : string) (df : DataFrame) : DataFrame :=
  with_records df (drop_duplicates_last c (df_records df)).

(** The rows of [rs] that have a cell in [c], paired with it, and the
    rows that have none. *)
Definition keyed (c : string) (rs : list row) : list (value * row) :=
  omap (fun r => (fun v => (v, r)) <$> cell c r) rs.

Definition na_rows (c : string) (rs : list row) : list row :=
  List.filter (fun r => bool_decide (cell c r = None)) rs.

Section Pandas.

(** numpy's [argsort] behind [sort_values] (default [kind='quicksort'],
    not stable): some rearrangement of the keyed rows in ascending key
    order.  Which rearrangement, among rows with equal keys, is left
    to this parameter. *)
Variable argsort : list (value * row) -> list (value * row).

(** [df.sort_values(by=c)]: rows with a cell in [c] in ascending
    order, then the rows whose cell is NA in their original order
    ([na_position='last']).  Raises [TypeError] on a column that mixes
    [int] and [str]. *)
Definition sort_values (c : string) (df : DataFrame) : result DataFrame :=
  let ks := keyed c (df_records df) in
  if comparable (ks.*1)
  then Ok (with_records df ((argsort ks).*2 ++ na_rows c (df_records df)))
  else Raise TypeError.

(** [process_dataset], "# Merge": existing rows first, then the delta. *)
Definition merge_frames (df_existing df_delta : DataFrame) : DataFrame :=
  if negb (df_empty df_existing)
  then pd_concat [df_existing; df_delta]
  else df_delta.

(** [process_dataset], "# Dedupe by PK + Updated At". *)
Definition dedupe (pk : string) (df_final : DataFrame) : result DataFrame :=
  if bool_decide (pk ∈ columns df_final) then
    if bool_decide (":updated_at" ∈ columns df_final) then
      match sort_values ":updated_at" df_final with
      | Ok sorted => Ok (drop_duplicates pk sorted)
      | Raise e => Raise e
      end
    else Ok (drop_duplicates pk df_final)
  else Ok df_final.

Definition upsert (pk : string) (df_existing df_delta : DataFrame)
  : result DataFrame :=
  dedupe pk (merge_frames df_existing df_delta).

End Pandas.

(** A stable instance of [argsort], used to run the model. *)
Definition key_le (x y : value * row) : Prop := value_le x.1 y.1.

#[global] Instance key_le_dec : RelDecision key_le.
Proof. intros x y. unfold key_le, value_le. apply _. Defined.

Definition stable_argsort (ks : list (value * row)) : list (value * row) :=
  merge_sort key_le ks.

(** ** Strings: the [str] methods the job uses *)

(** [s.replace(c, by)] for a one-character pattern [c]. *)
Fixpoint str_replace (c : ascii) (by_ : string) (s : string) : string :=
  match s with
  | EmptyString => EmptyString
  | String a s' =>
      if Ascii.eqb a c
      then by_ +:+ str_replace c by_ s'
      else String a (str_replace c by_ s')
  end.

(** [s.lstrip("/")]. *)
Fixpoint lstrip_slash (s : string) : string :=
  match s with
  | String a s' => if Ascii.eqb a "/" then lstrip_slash s' else s
  | EmptyString => EmptyString
  end.

(** Truth value of an [Optional[str]]: [None] and [""] are false. *)
Definition truthy (o : option string) : bool :=
  match o with
  | Some s => negb (String.eqb s "")
  | None => false
  end.

(** ** [datetime]

    Naive or offset-aware timestamps with a whole-minute UTC offset. *)

Record datetime : Type := mkDatetime {
  year : Z;
  month : Z;
  day : Z;
  hour : Z;
  minute : Z;
  second : Z;
  microsecond : Z;
  tzinfo : option Z          (* utcoffset in minutes *)
}.

Definition is_leap (y : Z) : bool :=
  ((y mod 4 =? 0) && (negb (y mod 100 =? 0) || (y mod 400 =? 0)))%Z.

(** The tables [_DAYS_IN_MONTH] and [_DAYS_BEFORE_MONTH] (common year). *)
Definition DAYS_IN_MONTH (m : Z) : Z :=
  (if m =? 2 then 28
   else if (m =? 4) || (m =? 6) || (m =? 9) || (m =? 11) then 30
   else 31)%Z.

Definition DAYS_BEFORE_MONTH (m : Z) : Z :=
  fold_right Z.add 0%Z
    (List.map (fun k => DAYS_IN_MONTH (Z.of_nat k)) (seq 1 (Z.to_nat (m - 1)))).

Definition days_in_month (y m : Z) : Z :=
  (if (m =? 2) && is_leap y then 29 else DAYS_IN_MONTH m)%Z.

Definition days_before_year (y : Z) : Z :=
  (let y1 := y - 1 in y1 * 365 + y1 / 4 - y1 / 100 + y1 / 400)%Z.

(** Days in year [y] before the first day of month [m]. *)
Definition days_before_month (y m : Z) : Z :=
  (DAYS_BEFORE_MONTH m + (if (2 <? m) && is_leap y then 1 else 0))%Z.

(** [date.toordinal]: 0001-01-01 is day 1. *)
Definition ymd2ord (y m d : Z) : Z :=
  (days_before_year y + days_before_month y m + d)%Z.

Definition MAXORDINAL : Z := 3652059.

(** [date.fromordinal], for [1 <= n <= MAXORDINAL]. *)
Definition ord2ymd (n : Z) : Z * Z * Z :=
  (let n := n - 1 in
   let n400 := n / 146097 in let n := n mod 146097 in
   let n100 := n / 36524 in let n := n mod 36524 in
   let n4 := n / 1461 in let n := n mod 1461 in
   let n1 := n / 365 in let n := n mod 365 in
   let y := n400 * 400 + 1 + n100 * 100 + n4 * 4 + n1 in
   if (n1 =? 4) || (n100 =? 4) then (y - 1, 12, 31)
   else
     let leapyear := (n1 =? 3) && (negb (n4 =? 24) || (n100 =? 3)) in
     let m := Z.shiftr (n + 50) 5 in
     let preceding :=
       DAYS_BEFORE_MONTH m + (if (2 <? m) && leapyear then 1 else 0) in
     if n <? preceding
     then
       let m := m - 1 in
       let preceding :=
         preceding
         - (DAYS_IN_MONTH m + (if (m =? 2) && leapyear then 1 else 0)) in
       (y, m, n - preceding + 1)
     else (y, m, n - preceding + 1))%Z.

(** [dt - timedelta(hours=h)]: the civil time [h] hours earlier, with the
    same [tzinfo]; [OverflowError] when the date leaves years 1..9999. *)
Definition sub_hours (dt : datetime) (h : Z) : result datetime :=
  (let secs := hour dt * 3600 + minute dt * 60 + second dt - h * 3600 in
   let days := ymd2ord (year dt) (month dt) (day dt) + secs / 86400 in
   let secs := secs mod 86400 in
   if (0 <? days) && (days <=? MAXORDINAL) then
     let '(y, m, d) := ord2ymd days in
     Ok {| year := y; month := m; day := d;
           hour := secs / 3600; minute := (secs mod 3600) / 60;
           second := secs mod 60; microsecond := microsecond dt;
           tzinfo := tzinfo dt |}
   else Raise OverflowError)%Z.

Definition digit_char (d : Z) : ascii :=
  ascii_of_nat (48 + Z.to_nat (d mod 10)).

(** [z] in decimal on exactly [w] digits ("%0wd" for [0 <= z < 10^w]). *)
Fixpoint zero_padded (w : nat) (z : Z) : string :=
  match w with
  | O => EmptyString
  | S w' => zero_padded w' (z / 10) +:+ String (digit_char z) EmptyString
  end.

Definition format_offset (off : Z) : string :=
  (if (off <? 0)%Z then "-" else "+")
  +:+ zero_padded 2 (Z.abs off / 60)%Z +:+ ":"
  +:+ zero_padded 2 (Z.abs off mod 60)%Z.

(** [dt.isoformat()]. *)
Definition isoformat (dt : datetime) : string :=
  zero_padded 4 (year dt) +:+ "-" +:+ zero_padded 2 (month dt) +:+ "-"
  +:+ zero_padded 2 (day dt) +:+ "T" +:+ zero_padded 2 (hour dt) +:+ ":"
  +:+ zero_padded 2 (minute dt) +:+ ":" +:+ zero_padded 2 (second dt)
  +:+ (if (microsecond dt =? 0)%Z then ""
       else "." +:+ zero_padded 6 (microsecond dt))
  +:+ match tzinfo dt with
      | Some off => format_offset off
      | None => ""
      end.

(** A parser for the timestamps [isoformat] writes,
    [YYYY-MM-DD[*HH:MM:SS[.fff[fff]][+HH:MM]]]; anything else is a
    [ValueError].  It instantiates the [fromisoformat] parameter of the
    job when the model is run. *)
Definition digits (cs : list ascii) : option Z :=
  foldl (fun acc c =>
           match acc, Ascii.is_nat c with
           | Some n, Some d => Some (n * 10 + Z.of_nat d)%Z
           | _, _ => None
           end) (Some 0%Z) cs.

Definition parse_offset (cs : list ascii) : option (option Z) :=
  match cs with
  | [] => Some None
  | [sg; h1; h2; ":"%char; m1; m2] =>
      match digits [h1; h2], digits [m1; m2] with
      | Some h, Some m =>
          if ((h <? 24) && (m <? 60))%Z then
            if Ascii.eqb sg "+" then Some (Some (h * 60 + m)%Z)
            else if Ascii.eqb sg "-" then Some (Some (- (h * 60 + m))%Z)
            else None
          else None
      | _, _ => None
      end
  | _ => None
  end.

Definition parse_fraction (cs : list ascii) : option (Z * list ascii) :=
  match cs with
  | "."%char :: f1 :: f2 :: f3 :: rest =>
      match rest with
      | f4 :: f5 :: f6 :: rest' =>
          match digits [f1; f2; f3; f4; f5; f6] with
          | Some us => Some (us, rest')
          | None =>
              match digits [f1; f2; f3] with
              | Some ms => Some ((ms * 1000)%Z, rest)
              | None => None
              end
          end
      | _ =>
          match digits [f1; f2; f3] with
          | Some ms => Some ((ms * 1000)%Z, rest)
          | None => None
          end
      end
  | "."%char :: _ => None
  | _ => Some (0%Z, cs)
  end.

Definition parse_time (cs : list ascii) : option (Z * Z * Z * Z * option Z) :=
  match cs with
  | h1 :: h2 :: ":"%char :: m1 :: m2 :: ":"%char :: s1 :: s2 :: rest =>
      match digits [h1; h2], digits [m1; m2], digits [s1; s2],
            parse_fraction rest with
      | Some h, Some m, Some s, Some (us, rest') =>
          match parse_offset rest' with
          | Some tz =>
              if ((h <? 24) && (m <? 60) && (s <? 60))%Z
              then Some (h, m, s, us, tz) else None
          | None => None
          end
      | _, _, _, _ => None
      end
  | _ => None
  end.

Definition fromisoformat_iso (s : string) : result datetime :=
  match list_ascii_of_string s with
  | y1 :: y2 :: y3 :: y4 :: "-"%char :: m1 :: m2 :: "-"%char :: d1 :: d2 :: rest =>
      match digits [y1; y2; y3; y4], digits [m1; m2], digits [d1; d2] with
      | Some y, Some m, Some d =>
          if ((1 <=? y) && (1 <=? m) && (m <=? 12) && (1 <=? d)
              && (d <=? days_in_month y m))%Z
          then
            match rest with
            | [] => Ok (mkDatetime y m d 0 0 0 0 None)
            | _sep :: t =>
                match parse_time t with
                | Some (h, mi, sec, us, tz) => Ok (mkDatetime y m d h mi sec us tz)
                | None => Raise ValueError
                end
            end
          else Raise ValueError
      | _, _, _ => Raise ValueError
      end
  | _ => Raise ValueError
  end.

(** ** Files, the world and the effect monad *)

(** [NormalizedRow], [InputSpec] and [OutputSpec] of the extractors. *)
Record NormalizedRow : Type := mkNormalizedRow {
  nr_entity : string;
  nr_canonical_key : option string;
  nr_row : row
}.

Record InputSpec : Type := mkInputSpec {
  request_id : string;
  input_path : option string
}.

Record OutputSpec : Type := mkOutputSpec {
  os_request_id : string;
  os_entity : string;
  os_rows : list NormalizedRow
}.

(** What a file holds.  Serialisation is kept symbolic: a file written
    with [json.dumps(x)] or [to_parquet] holds [x]. *)
Inductive content : Type :=
  | RawJson (rows : list row)
  | MetaJson (row_count : nat) (extracted_at : string) (is_bootstrap : bool)
  | StateJson (watermark_updated_at : option string) (last_run_id : string)
  | VelocityJson (status : string) (count : nat)
  | CatalogJson (datasets : list string) (generated_at : string)
  | Parquet (df : DataFrame)
  | Bytes (s : string).

(** A file on the mount: written to the end, or cut short by a failed
    write ([Torn c] holds a proper prefix of the bytes of [c]). *)
Inductive file : Type :=
  | Complete (c : content)
  | Torn (c : content).

Inductive log_record : Type :=
  | LogProcessing (key mode : string) (watermark : option string)
  | LogFetching (key : string) (offset : nat)
  | LogFetched (n : nat) (key : string)
  | LogWatermarkParseFailed (watermark : string) (e : exn)
  | LogNoData
  | LogParquetReadError (fpath : string) (e : exn)
  | LogUpserted (n : nat) (path : string)
  | LogNoCurated
  | LogLoadCuratedFailed (e : exn).

(** The query parameters of one [get_json] call. *)
Record params : Type := mkParams {
  p_limit : nat;
  p_order : string;
  p_where : option string;
  p_offset : nat
}.

Record World : Type := mkWorld {
  r2 : gmap string file;          (* the mounted bucket, by relative key *)
  local_tmp : gmap string file;   (* the local scratch files, by path *)
  logs : list log_record;         (* logger output, oldest first *)
  requests : list (string * params);  (* get_json calls, oldest first *)
  write_faults : list bool;       (* for each coming write on the mount:
                                     does the storage fail during it *)
  now : datetime                  (* what datetime.utcnow() reads *)
}.

Definition set_r2 (f : gmap string file -> gmap string file) (w : World) : World :=
  mkWorld (f (r2 w)) (local_tmp w) (logs w) (requests w) (write_faults w) (now w).

Definition set_local (f : gmap string file -> gmap string file) (w : World) : World :=
  mkWorld (r2 w) (f (local_tmp w)) (logs w) (requests w) (write_faults w) (now w).

Definition add_log (l : log_record) (w : World) : World :=
  mkWorld (r2 w) (local_tmp w) (logs w ++ [l]) (requests w) (write_faults w) (now w).

Definition add_request (q : string * params) (w : World) : World :=
  mkWorld (r2 w) (local_tmp w) (logs w) (requests w ++ [q]) (write_faults w) (now w).

Definition set_faults (fs : list bool) (w : World) : World :=
  mkWorld (r2 w) (local_tmp w) (logs w) (requests w) fs (now w).

(** A computation on the world: [None] when the fuel ran out, otherwise
    a value or an exception, and the world as it was left. *)
Definition M (A : Type) : Type := World -> option (result A * World).

Definition ret {A} (a : A) : M A := fun w => Some (Ok a, w).

Definition raise {A} (e : exn) : M A := fun w => Some (Raise e, w).

Definition bind {A B} (m : M A) (k : A -> M B) : M B :=
  fun w =>
    match m w with
    | Some (Ok a, w') => k a w'
    | Some (Raise e, w') => Some (Raise e, w')
    | None => None
    end.

Definition lift {A} (r : result A) : M A :=
  match r with
  | Ok a => ret a
  | Raise e => raise e
  end.

(** [try: m  except Exception as e: h e]. *)
Definition try_except {A} (m : M A) (h : exn -> M A) : M A :=
  fun w =>
    match m w with
    | Some (Raise e, w') => h e w'
    | o => o
    end.

Declare Scope job_scope.
Delimit Scope job_scope with job.
Notation "'let*' x ':=' m 'in' k" := (bind m (fun x => k))
  (at level 10, x name, m at level 100, k at level 200) : job_scope.
Notation "'let*' ' p ':=' m 'in' k" := (bind m (fun x => match x with p => k end))
  (at level 10, p pattern, m at level 100, k at level 200) : job_scope.
Notation "m ;; k" := (bind m (fun _ => k))
  (at level 100, k at level 200, right associativity) : job_scope.
Local Open Scope job_scope.

Definition log (l : log_record) : M unit := fun w => Some (Ok tt, add_log l w).

Definition utcnow : M datetime := fun w => Some (Ok (now w), w).

(** ** [r2_storage.py] *)

(** [_norm_rel]: strip leading slashes, turn backslashes into slashes,
    refuse the empty path. *)
Definition _norm_rel (p : string) : result string :=
  let p := str_replace "\"%char "/" (lstrip_slash p) in
  if String.eqb p "" then Raise ValueError else Ok p.

(** [R2FS._abs]: the key of the object under the mount. *)
Definition _abs (rel : string) : result string := _norm_rel rel.

(** [open(p, "wb").write(data)] on the mount: the file is truncated and
    filled; when the storage fails during the write the file is left
    torn and [OSError] is raised. *)
Definition storage_write (k : string) (data : content) : M unit :=
  fun w =>
    match write_faults w with
    | true :: fs => Some (Raise OSError, set_faults fs (set_r2 <[k := Torn data]> w))
    | false :: fs => Some (Ok tt, set_faults fs (set_r2 <[k := Complete data]> w))
    | [] => Some (Ok tt, set_r2 <[k := Complete data]> w)
    end.

(** [Path.replace]: an atomic rename over the target. *)
Definition storage_rename (src dst : string) : M unit :=
  fun w =>
    match r2 w !! src with
    | Some f => Some (Ok tt, set_r2 (fun m => <[dst := f]> (delete src m)) w)
    | None => Some (Raise OSError, w)
    end.

(** [Path.is_dir] and [Path.exists] on the mount: a directory is there
    when some object lies under it. *)
Definition is_dir (k : string) (m : gmap string file) : bool :=
  existsb (fun kf => String.prefix (k +:+ "/") kf.1) (map_to_list m).

Definition path_exists (k : string) (m : gmap string file) : bool :=
  bool_decide (is_Some (m !! k)) || is_dir k m.

(** [R2FS.exists]. *)
Definition exists_ (rel : string) : M bool :=
  let* k := lift (_abs rel) in
  fun w => Some (Ok (path_exists k (r2 w)), w).

(** [R2FS.read_json]: the parsed document; a file that is not JSON text
    does not parse. *)
Definition read_json (rel : string) : M content :=
  let* k := lift (_abs rel) in
  fun w =>
    match r2 w !! k with
    | Some (Complete (Parquet _)) | Some (Complete (Bytes _)) | Some (Torn _) =>
        Some (Raise JSONDecodeError, w)
    | Some (Complete c) => Some (Ok c, w)
    | None => Some (Raise OSError, w)
    end.

(** [R2FS.write_bytes]: write beside the target, then rename over it. *)
Definition write_bytes (rel : string) (data : content) : M unit :=
  let* p := lift (_abs rel) in
  let tmp := p +:+ ".tmp" in
  storage_write tmp data ;;
  storage_rename tmp p.

Definition write_text (rel : string) (data : content) : M unit :=
  write_bytes rel data.

Definition write_json (rel : string) (obj : content) : M unit :=
  write_text rel obj.

(** [R2FS.mkdirs]: directories are implied by the keys. *)
Definition mkdirs (rel_dir : string) : M unit :=
  let* _k := lift (_abs rel_dir) in ret tt.

(** [R2FS.list(prefix, recursive=True)]. *)
Definition list_ (prefix : string) : M (list string) :=
  let* root := lift (_abs prefix) in
  fun w =>
    if bool_decide (is_Some (r2 w !! root)) then Some (Ok [root], w)
    else Some (Ok (str_replace "\"%char "/"
                     <$> List.filter (String.prefix (root +:+ "/"))
                                     (map_to_list (r2 w)).*1), w).

(** [pd.read_parquet(path)] and [df.to_parquet(path)] on the mount. *)
Definition read_parquet (k : string) : M DataFrame :=
  fun w =>
    match r2 w !! k with
    | Some (Complete (Parquet df)) => Some (Ok df, w)
    | Some _ => Some (Raise ValueError, w)
    | None => Some (Raise OSError, w)
    end.

Definition to_parquet (df : DataFrame) (k : string) : M unit :=
  storage_write k (Parquet df).

(** [open(path, "w")] with [json.dump] in the local scratch directory. *)
Definition local_write (path : string) (data : content) : M unit :=
  fun w => Some (Ok tt, set_local <[path := Complete data]> w).

(** ** [ingest_job.py] *)

Definition R2_RAW_PREFIX : string := "raw".
Definition R2_CURATED_PREFIX : string := "curated".
Definition R2_INSIGHTS_PREFIX : string := "insights".
Definition SAFETY_LAG_HOURS : Z := 2.

(** An extractor reads the file named by its [InputSpec] from the local
    scratch directory and returns normalised rows, or raises. *)
Definition Extractor : Type := InputSpec -> gmap string file -> result OutputSpec.

(** One entry of [DATASET_CONFIG]. *)
Record DatasetConfig : Type := mkDatasetConfig {
  soda_id : string;
  extractor : Extractor;
  pk : option string;
  date_field : option string
}.

(** [DATASET_CONFIG], with the contractor extractor as a parameter. *)
Definition DATASET_CONFIG (run_contractor : Extractor) : gmap string DatasetConfig :=
  {[ "contractors" :=
       {| soda_id := "3pee-9qhc"; extractor := run_contractor;
          pk := Some "contractor_id"; date_field := Some ":updated_at" |} ]}.

(** The fields of [IngestJob] set by [__init__]. *)
Record IngestJob : Type := mkIngestJob {
  run_id : string;
  mode : string;
  target_datasets : list string;
  prev_run_id : option string
}.

(** [self.local_tmp / name]. *)
Definition local_path (self : IngestJob) (name : string) : string :=
  "/tmp/" +:+ run_id self +:+ "/" +:+ name.

Definition raw_key (self : IngestJob) (key : string) (is_bootstrap : bool) : string :=
  R2_RAW_PREFIX +:+ "/" +:+ key +:+ "/" +:+ run_id self +:+ "/"
  +:+ (if is_bootstrap then "full" else "delta") +:+ ".json".

Definition meta_key (self : IngestJob) (key : string) : string :=
  R2_RAW_PREFIX +:+ "/" +:+ key +:+ "/" +:+ run_id self +:+ "/meta.json".

Definition curated_dir (key : string) : string :=
  R2_CURATED_PREFIX +:+ "/" +:+ key +:+ "/parquet".

Definition state_path (ds : string) : string :=
  R2_CURATED_PREFIX +:+ "/" +:+ ds +:+ "/_state.json".

(** [state.get("watermark_updated_at")] on a parsed state document. *)
Definition get_watermark (state : content) : result (option string) :=
  match state with
  | StateJson wm _ => Ok wm
  | RawJson _ => Raise AttributeError
  | _ => Ok None
  end.

Section Job.

(** The remote source behind [SodaClient.get_json]: the rows of a page,
    or the exception [raise_for_status] raises. *)
Variable soda_get_json : string -> params -> result (list row).

Variable argsort : list (value * row) -> list (value * row).

(** [datetime.fromisoformat]. *)
Variable fromisoformat : string -> result datetime.

Definition get_json (dataset_id : string) (q : params) : M (list row) :=
  fun w => Some (soda_get_json dataset_id q, add_request (dataset_id, q) w).

(** The [while True] loop of [fetch_socrata_pages]. *)
Fixpoint fetch_loop (fuel : nat) (dataset_key soda_id : string)
    (where_ : option string) (offset : nat) (all_rows : list row)
  : M (list row) :=
  match fuel with
  | O => fun _ => None
  | S fuel' =>
      let limit := 2000%nat in
      log (LogFetching dataset_key offset) ;;
      let* rows := get_json soda_id
                     {| p_limit := limit; p_order := ":updated_at";
                        p_where := where_; p_offset := offset |} in
      match rows with
      | [] => ret all_rows
      | _ =>
          let all_rows := (all_rows ++ rows)%list in
          if (length rows <? limit)%nat then ret all_rows
          else fetch_loop fuel' dataset_key soda_id where_ (offset + limit)%nat all_rows
      end
  end.

Definition where_clause (since : option string) : option string :=
  match since with
  | Some s => if truthy since then Some (":updated_at > '" +:+ s +:+ "'") else None
  | None => None
  end.

Definition fetch_socrata_pages (fuel : nat) (dataset_key soda_id : string)
    (since : option string) : M (list row) :=
  fetch_loop fuel dataset_key soda_id (where_clause since) 0%nat [].

(** [process_dataset], mode selection. *)
Definition select_bootstrap (self : IngestJob) (watermark : option string) : bool :=
  let is_bootstrap := String.eqb (mode self) "bootstrap" in
  if String.eqb (mode self) "auto"
  then (if negb (truthy watermark) then true else is_bootstrap)
  else is_bootstrap.

(** The body of the [try] that applies the safety lag. *)
Definition lagged (watermark : string) : result string :=
  match fromisoformat (str_replace "Z"%char "+00:00" watermark) with
  | Ok dt =>
      match sub_hours dt SAFETY_LAG_HOURS with
      | Ok dt_lag => Ok (isoformat dt_lag)
      | Raise e => Raise e
      end
  | Raise e => Raise e
  end.

Definition fetch_since_of (is_bootstrap : bool) (watermark : option string)
  : M (option string) :=
  match watermark with
  | Some wm =>
      if negb is_bootstrap && truthy watermark then
        match lagged wm with
        | Ok s => ret (Some s)
        | Raise e => log (LogWatermarkParseFailed wm e) ;; ret None
        end
      else ret None
  | None => ret None
  end.

(** [process_dataset], steps 1 to 3: fetch, store raw, normalise.
    Returns [is_bootstrap] and [df_delta]. *)
Definition fetch_store_normalize (fuel : nat) (self : IngestJob) (key : string)
    (config : DatasetConfig) (watermark : option string)
  : M (bool * DataFrame) :=
  log (LogProcessing key (mode self) watermark) ;;
  let is_bootstrap := select_bootstrap self watermark in
  let* fetch_since := fetch_since_of is_bootstrap watermark in
  let* raw_rows := fetch_socrata_pages fuel key (soda_id config) fetch_since in
  log (LogFetched (length raw_rows) key) ;;
  let raw_rows_path := local_path self (key +:+ "_active.json") in
  local_write raw_rows_path (RawJson raw_rows) ;;
  write_text (raw_key self key is_bootstrap) (RawJson raw_rows) ;;
  let* t := utcnow in
  write_json (meta_key self key)
             (MetaJson (length raw_rows) (isoformat t) is_bootstrap) ;;
  let spec := {| request_id := run_id self; input_path := Some raw_rows_path |} in
  let* output_spec := (fun w => Some (extractor config spec (local_tmp w), w)) in
  let norm_data := nr_row <$> os_rows output_spec in
  ret (is_bootstrap, pd_DataFrame norm_data).

(** Reading the persisted parts of the curated table; a part that does
    not read is logged and skipped. *)
Fixpoint read_parts (files : list string) (dfs : list DataFrame)
  : M (list DataFrame) :=
  match files with
  | [] => ret dfs
  | fpath :: files' =>
      let* full_path := lift (_abs fpath) in
      let* dfs := try_except
                    (let* df := read_parquet full_path in ret (dfs ++ [df])%list)
                    (fun e => log (LogParquetReadError fpath e) ;; ret dfs) in
      read_parts files' dfs
  end.

(** [process_dataset], step 4: upsert into the curated table. *)
Definition upsert_curated (self : IngestJob) (key : string)
    (config : DatasetConfig) (is_bootstrap : bool) (df_delta : DataFrame)
  : M unit :=
  let* existing_files := list_ (curated_dir key) in
  let* df_existing :=
    (if negb is_bootstrap && negb (bool_decide (existing_files = [])) then
       let* dfs := read_parts existing_files [] in
       match dfs with
       | [] => ret (pd_DataFrame [])
       | _ => ret (pd_concat dfs)
       end
     else ret (pd_DataFrame [])) in
  let* df_final := lift (upsert argsort (default "id" (pk config)) df_existing df_delta) in
  let* target_parquet_file := lift (_abs (curated_dir key +:+ "/data.parquet")) in
  to_parquet df_final target_parquet_file ;;
  log (LogUpserted (length (df_records df_final)) target_parquet_file).

Definition process_dataset (fuel : nat) (self : IngestJob) (key : string)
    (config : DatasetConfig) (watermark : option string) : M unit :=
  let* '(is_bootstrap, df_delta) :=
    fetch_store_normalize fuel self key config watermark in
  if df_empty df_delta then log LogNoData
  else upsert_curated self key config is_bootstrap df_delta.

Definition calculate_insights (self : IngestJob) : M unit :=
  let* loaded :=
    try_except
      (let* curated_path :=
         lift (_abs (R2_CURATED_PREFIX +:+ "/contractors/parquet/data.parquet")) in
       fun w =>
         if negb (path_exists curated_path (r2 w))
         then (log LogNoCurated ;; ret None) w
         else (let* df := read_parquet curated_path in ret (Some df)) w)
      (fun e => log (LogLoadCuratedFailed e) ;; ret None) in
  match loaded with
  | None => ret tt
  | Some df =>
      let insights_dir := R2_INSIGHTS_PREFIX +:+ "/" +:+ run_id self in
      mkdirs insights_dir ;;
      write_json (insights_dir +:+ "/summaries/velocity.json")
                 (VelocityJson "computed" (length (df_records df))) ;;
      let* t := utcnow in
      let catalog := CatalogJson (target_datasets self) (isoformat t) in
      write_json (insights_dir +:+ "/catalog.json") catalog ;;
      write_json (R2_INSIGHTS_PREFIX +:+ "/latest/catalog.json") catalog
  end.

(** The body of the [for ds in self.target_datasets] loop of [run]. *)
Definition run_dataset (registry : gmap string DatasetConfig) (fuel : nat)
    (self : IngestJob) (ds : string) : M unit :=
  match registry !! ds with
  | Some config =>
      let* present := exists_ (state_path ds) in
      let* watermark :=
        (if present
         then let* state := read_json (state_path ds) in lift (get_watermark state)
         else ret None) in
      process_dataset fuel self ds config watermark ;;
      let* t := utcnow in
      write_json (state_path ds) (StateJson (Some (isoformat t)) (run_id self))
  | None => ret tt
  end.

Fixpoint run_datasets (registry : gmap string DatasetConfig) (fuel : nat)
    (self : IngestJob) (dss : list string) : M unit :=
  match dss with
  | [] => ret tt
  | ds :: dss' =>
      run_dataset registry fuel self ds ;;
      run_datasets registry fuel self dss'
  end.

Definition run (registry : gmap string DatasetConfig) (fuel : nat)
    (self : IngestJob) : M unit :=
  run_datasets registry fuel self (target_datasets self) ;;
  calculate_insights self.

End Job.

(** ** Instances used to run the model, and vocabulary of the statements *)

(** An extractor that returns the rows of its input file as they are. *)
Definition rows_extractor : Extractor :=
  fun spec fs =>
    match input_path spec with
    | Some p =>
        match fs !! p with
        | Some (Complete (RawJson rows)) =>
            Ok {| os_request_id := request_id spec; os_entity := "row";
                  os_rows := (fun r => mkNormalizedRow "row" None r) <$> rows |}
        | _ => Raise ExtractorError
        end
    | None => Raise ExtractorError
    end.

(** The rows of the dedup example: an existing row and a newer delta row
    with the same primary key. *)
Definition row_a : row :=
  {[ "pk" := VInt 1; ":updated_at" := VInt 10; "v" := VStr "a" ]}.

Definition row_b : row :=
  {[ "pk" := VInt 1; ":updated_at" := VInt 12; "v" := VStr "b" ]}.

(** Rows of the examples without timestamps: two rows that lack the
    primary key, rows that carry it. *)
Definition row_nokey_a : row := {[ "v" := VStr "a" ]}.
Definition row_nokey_b : row := {[ "v" := VStr "b" ]}.
Definition row_key7_old : row := {[ "contractor_id" := VInt 7; "v" := VStr "old" ]}.
Definition row_key7_new : row := {[ "contractor_id" := VInt 7; "v" := VStr "new" ]}.

(** Dataset [ds] was taken up by [process_dataset] (its first log line). *)
Definition processed (ds : string) (w : World) : bool :=
  existsb (fun l => match l with
                    | LogProcessing k _ _ => String.eqb k ds
                    | _ => false
                    end) (logs w).

(** The parameters [fetch_socrata_pages] sends for the page at [offset]. *)
Definition page_params (where_ : option string) (offset : nat) : params :=
  {| p_limit := 2000; p_order := ":updated_at";
     p_where := where_; p_offset := offset |}.

(** A source whose first page is full and whose second page is empty. *)
Definition full_page : list row := replicate 2000 row_a.

Definition full_then_empty : string -> params -> result (list row) :=
  fun _ q => if (p_offset q =? 0)%nat then Ok full_page else Ok [].

(** The world after the fetch loop asked for [n] pages from [offset] on. *)
Fixpoint pages_requested (key sid : string) (where_ : option string)
    (offset n : nat) (w : World) : World :=
  match n with
  | O => w
  | S n' =>
      pages_requested key sid where_ (offset + 2000) n'
        (add_request (sid, {| p_limit := 2000; p_order := ":updated_at";
                              p_where := where_; p_offset := offset |})
                     (add_log (LogFetching key offset) w))
  end.

(** Bucket keys under the curated prefix. *)
Definition under_curated (k : string) : Prop := String.prefix "curated/" k = true.

(** [w'] holds the same objects as [w] at every key satisfying [S]. *)
Definition r2_same_on (S : string -> Prop) (w w' : World) : Prop :=
  forall k, S k -> r2 w' !! k = r2 w !! k.

(** [w'] has the requests of [w] followed by requests satisfying [ok]. *)
Definition requests_extend (ok : string * params -> Prop) (w w' : World) : Prop :=
  exists new, requests w' = (requests w ++ new)%list /\ Forall ok new.

(** The object keys the job's paths resolve to on the mount. *)
Definition posix (s : string) : string := str_replace "\"%char "/" s.

Definition raw_object (self : IngestJob) (key : string) (is_bootstrap : bool) : string :=
  "raw/" +:+ posix key +:+ "/" +:+ posix (run_id self) +:+ "/"
  +:+ (if is_bootstrap then "full.json" else "delta.json").

Definition meta_object (self : IngestJob) (key : string) : string :=
  "raw/" +:+ posix key +:+ "/" +:+ posix (run_id self) +:+ "/meta.json".

Definition curated_object (key : string) : string :=
  "curated/" +:+ posix key +:+ "/parquet/data.parquet".

(** Every outcome of [m] has sent at least one request, and all the
    requests it sent satisfy [ok]. *)
Definition sends (ok : string * params -> Prop) {A} (m : M A) : Prop :=
  forall w r w', m w = Some (r, w') ->
    exists q new, requests w' = requests w ++ q :: new /\ Forall ok (q :: new).

(** The value [process_dataset] leaves in [fetch_since]. *)
Definition since_of (fromisoformat : string -> result datetime)
    (is_bootstrap : bool) (watermark : option string) : option string :=
  match watermark with
  | Some wm =>
      if negb is_bootstrap && truthy watermark then
        match lagged fromisoformat wm with
        | Ok s => Some s
        | Raise _ => None
        end
      else None
  | None => None
  end.

(** The bucket after [write_bytes] stored [data] under key [p]. *)
Definition stored (p : string) (data : content) (m : gmap string file)
  : gmap string file :=
  <[p := Complete data]>
    (delete (p +:+ ".tmp") (<[p +:+ ".tmp" := Complete data]> m)).

(** ** Example worlds *)

Definition contractor_old : row :=
  {[ "contractor_id" := VInt 7; ":updated_at" := VStr "2025-01-09T08:00:00";
     "v" := VStr "old" ]}.

Definition contractor_new : row :=
  {[ "contractor_id" := VInt 7; ":updated_at" := VStr "2025-01-10T09:30:00";
     "v" := VStr "new" ]}.

(** A source with one short page of one row, whatever the filter. *)
Definition one_row_source : string -> params -> result (list row) :=
  fun _ q => if (p_offset q =? 0)%nat then Ok [contractor_new] else Ok [].

(** A source with no rows. *)
Definition empty_source : string -> params -> result (list row) :=
  fun _ _ => Ok [].

(** A source that is down for the contractors dataset only. *)
Definition contractors_down : string -> params -> result (list row) :=
  fun sid q =>
    if String.eqb sid "3pee-9qhc" then Raise HTTPStatusError
    else one_row_source sid q.

Definition noon : datetime := mkDatetime 2025 1 10 12 0 0 0 None.

(** A bucket holding a committed curated table and its watermark. *)
Definition bucket_with_table (watermark : string) : gmap string file :=
  {[ "curated/contractors/parquet/data.parquet" :=
       Complete (Parquet (pd_DataFrame [contractor_old]));
     "curated/contractors/_state.json" :=
       Complete (StateJson (Some watermark) "run0") ]}.

Definition world_with_table (watermark : string) (faults : list bool) : World :=
  mkWorld (bucket_with_table watermark) ∅ [] [] faults noon.

(** A world with an empty bucket. *)
Definition fresh_world : World := mkWorld ∅ ∅ [] [] [] noon.

Definition contractors_config : DatasetConfig :=
  {| soda_id := "3pee-9qhc"; extractor := rows_extractor;
     pk := Some "contractor_id"; date_field := Some ":updated_at" |}.

Definition permits_config : DatasetConfig :=
  {| soda_id := "i98e-djp9"; extractor := rows_extractor;
     pk := Some "permit_number"; date_field := Some ":updated_at" |}.

(** A registry with a second dataset beside the contractors. *)
Definition two_datasets : gmap string DatasetConfig :=
  <["permits" := permits_config]> (DATASET_CONFIG rows_extractor).

Definition job_for (mode_ : string) (datasets : list string) : IngestJob :=
  {| run_id := "run1"; mode := mode_; target_datasets := datasets;
     prev_run_id := Some "run0" |}.

(** Component [f] of the world is the same in [w'] as in [w]. *)
Definition unchanged {X} (f : World -> X) (w w' : World) : Prop := f w' = f w.

(** Every outcome of [m] leaves the world related to the initial one. *)
Definition preserves (P : World -> World -> Prop) {A} (m : M A) : Prop :=
  forall w r w', m w = Some (r, w') -> P w w'.

(** ** Further vocabulary and examples *)

(** A row with a key and no [:updated_at], and a row of another key. *)
Definition row_key7_undated : row :=
  {[ "contractor_id" := VInt 7; "v" := VStr "undated" ]}.

Definition row_key8 : row :=
  {[ "contractor_id" := VInt 8; ":updated_at" := VStr "2025-01-08T00:00:00";
     "v" := VStr "other" ]}.



(** Character [c] occurs in [s]; [s] is made of slashes only. *)
Fixpoint has_char (c : ascii) (s : string) : bool :=
  match s with
  | EmptyString => false
  | String a s' => Ascii.eqb a c || has_char c s'
  end.

Fixpoint only_slashes (s : string) : bool :=
  match s with
  | EmptyString => true
  | String a s' => Ascii.eqb a "/" && only_slashes s'
  end.

(** The documents [json.dumps] writes, as opposed to parquet and to
    arbitrary bytes. *)
Definition is_json (c : content) : bool :=
  match c with
  | Parquet _ | Bytes _ => false
  | _ => true
  end.



(** A source that serves one full page and fails on the next. *)
Definition full_then_error : string -> params -> result (list row) :=
  fun _ q => if (p_offset q =? 0)%nat then Ok full_page else Raise HTTPStatusError.

(** A source that has a full page at every offset. *)
Definition endless_source : string -> params -> result (list row) :=
  fun _ _ => Ok full_page.


(** The object key of the directory that holds a dataset's curated
    table. *)
Definition curated_dir_object (key : string) : string :=
  "curated/" +:+ posix key +:+ "/parquet".

(** Nothing but [data.parquet] lies under the directory of the curated
    table of [key], and the directory is not itself an object. *)
Definition only_table_under (key : string) (m : gmap string file) : Prop :=
  m !! curated_dir_object key = None
  /\ forall k, is_Some (m !! k) ->
       String.prefix (curated_dir_object key +:+ "/") k = true ->
       k = curated_object key.

(** A bucket whose curated table was left torn by a failed write. *)
Definition bucket_with_torn_table : gmap string file :=
  {[ "curated/contractors/parquet/data.parquet" :=
       Torn (Parquet (pd_DataFrame [contractor_old; row_key8])) ]}.


(** The objects one pass of [process_dataset] may write: the raw
    snapshot and its metadata, the temporary files beside them, and the
    curated table. *)
Definition dataset_objects (self : IngestJob) (key : string) (is_bootstrap : bool)
  : list string :=
  [ raw_object self key is_bootstrap; raw_object self key is_bootstrap +:+ ".tmp";
    meta_object self key; meta_object self key +:+ ".tmp";
    curated_object key ].

(** The object key of a dataset's state file. *)
Definition state_object (ds : string) : string :=
  "curated/" +:+ posix ds +:+ "/_state.json".


(** The object keys of the insight documents of a run, and of the
    contractors table they are computed from. *)
Definition contractors_table : string := "curated/contractors/parquet/data.parquet".

Definition velocity_object (self : IngestJob) : string :=
  "insights/" +:+ posix (run_id self) +:+ "/summaries/velocity.json".

Definition catalog_object (self : IngestJob) : string :=
  "insights/" +:+ posix (run_id self) +:+ "/catalog.json".

Definition latest_catalog_object : string := "insights/latest/catalog.json".

(** * Properties *)

(** ** Rows and duplicates *)

Lemma cell_dom (c : string) (r : row) : is_Some (cell c r) -> c ∈ dom r.
Proof.
  unfold cell. intros [v Hv]. apply elem_of_dom.
  destruct (r !! c) as [x|]; [eauto | discriminate].
Qed.

Lemma elem_of_columns_row (df : DataFrame) (c : string) (r : row) :
  r ∈ df_records df -> c ∈ dom r -> c ∈ columns df.
Proof.
  intros Hr Hc. unfold columns. apply elem_of_union_r.
  apply elem_of_union_list. exists (dom r). split; [|done].
  apply list_elem_of_fmap. eauto.
Qed.

Lemma drop_duplicates_last_elem_of (c : string) (rs : list row) (r : row) :
  r ∈ drop_duplicates_last c rs -> r ∈ rs.
Proof.
  induction rs as [|x rs IH]; simpl; [done|].
  case_bool_decide as Hd; intros Hin.
  - right. auto.
  - apply elem_of_cons in Hin as [->|Hin]; [left | right; auto].
Qed.

Lemma drop_duplicates_last_keys (c : string) (rs : list row) (k : option value) :
  k ∈ cell c <$> rs <-> k ∈ cell c <$> drop_duplicates_last c rs.
Proof.
  induction rs as [|x rs IH]; simpl; [done|].
  case_bool_decide as Hx.
  - rewrite <- IH. rewrite elem_of_cons. split; [|by right].
    intros [->|?]; done.
  - rewrite fmap_cons, !elem_of_cons, IH. done.
Qed.

Lemma drop_duplicates_last_NoDup (c : string) (rs : list row) :
  NoDup (cell c <$> drop_duplicates_last c rs).
Proof.
  induction rs as [|x rs IH]; simpl; [constructor|].
  case_bool_decide as Hx; [done|].
  rewrite fmap_cons. constructor; [|done].
  by rewrite <- drop_duplicates_last_keys.
Qed.

(** A surviving row is a last occurrence of its key. *)
Lemma drop_duplicates_last_is_last (c : string) (rs : list row) (r : row) :
  r ∈ drop_duplicates_last c rs ->
  exists l1 l2, rs = l1 ++ r :: l2 /\ cell c r ∉ cell c <$> l2.
Proof.
  induction rs as [|x rs IH]; simpl; [by intros ?%elem_of_nil|].
  case_bool_decide as Hx; intros H.
  - destruct (IH H) as (l1 & l2 & -> & Hl). by exists (x :: l1), l2.
  - apply elem_of_cons in H as [->|H].
    + by exists [], rs.
    + destruct (IH H) as (l1 & l2 & -> & Hl). by exists (x :: l1), l2.
Qed.

Lemma drop_duplicates_last_survivor (c : string) (rs : list row) (r : row) :
  r ∈ rs -> exists r', r' ∈ drop_duplicates_last c rs /\ cell c r' = cell c r.
Proof.
  intros Hr.
  assert (cell c r ∈ cell c <$> drop_duplicates_last c rs) as H.
  { apply (proj1 (drop_duplicates_last_keys c rs _)).
    apply list_elem_of_fmap. eauto. }
  apply list_elem_of_fmap in H as (r' & ? & ?). eauto.
Qed.

Lemma keyed_elem_of (c : string) (rs : list row) (v : value) (r : row) :
  (v, r) ∈ keyed c rs <-> r ∈ rs /\ cell c r = Some v.
Proof.
  unfold keyed. rewrite list_elem_of_omap. split.
  - intros (x & Hx & Hv). destruct (cell c x) eqn:E; simplify_eq/=. done.
  - intros [Hr Hv]. exists r. split; [done|]. by rewrite Hv.
Qed.

Lemma keyed_all (c : string) (rs : list row) :
  (forall r, r ∈ rs -> is_Some (cell c r)) ->
  (keyed c rs).*2 = rs /\ na_rows c rs = [].
Proof.
  induction rs as [|x rs IH]; intros H; [done|].
  destruct (H x) as [v Hv]; [left|].
  destruct IH as [IH1 IH2]; [intros; apply H; by right|].
  unfold keyed, na_rows in *. simpl. rewrite Hv. simpl.
  split; [f_equal; exact IH1 | exact IH2].
Qed.

Lemma keyed_cells (c : string) (rs : list row) :
  (keyed c rs).*1 = omap (cell c) rs.
Proof.
  induction rs as [|x rs IH]; [done|].
  unfold keyed in *. simpl. destruct (cell c x); simpl; [f_equal|]; exact IH.
Qed.

(** ** The order on cells and the stable [argsort] *)

Lemma value_le_refl (v : value) : value_le v v.
Proof.
  destruct v as [|z|s]; unfold value_le; simpl; [done| |].
  - apply Z.leb_refl.
  - apply Is_true_true. change (String.le s s). done.
Qed.

#[global] Instance value_le_trans : Transitive value_le.
Proof.
  intros [|x|x] [|y|y] [|z|z]; unfold value_le; simpl; try done.
  - rewrite !Z.leb_le. lia.
  - intros H1%Is_true_true H2%Is_true_true. apply Is_true_true.
    change (String.le x z). by trans y.
Qed.

#[global] Instance value_le_total : Total value_le.
Proof.
  intros [|x|x] [|y|y]; unfold value_le; simpl; auto.
  - rewrite !Z.leb_le. lia.
  - apply String.leb_total.
Qed.

#[global] Instance key_le_trans : Transitive key_le.
Proof. intros x y z. unfold key_le. apply value_le_trans. Qed.

#[global] Instance key_le_total : Total key_le.
Proof. intros x y. unfold key_le. apply value_le_total. Qed.

Lemma stable_argsort_perm (ks : list (value * row)) : stable_argsort ks ≡ₚ ks.
Proof. apply merge_sort_Permutation. Qed.

Lemma stable_argsort_sorted (ks : list (value * row)) :
  comparable ks.*1 = true -> StronglySorted key_le (stable_argsort ks).
Proof. intros _. apply StronglySorted_merge_sort; apply _. Qed.

(** ** The merge: deduplication by primary key (C3, C4, C5) *)

Lemma rows_nil_of_missing_column (df : DataFrame) (c : string) :
  (forall r, r ∈ df_records df -> is_Some (cell c r)) ->
  c ∉ columns df -> df_records df = [].
Proof.
  intros Hall Hc. destruct (df_records df) as [|r rs] eqn:E; [done|].
  exfalso. apply Hc. apply (elem_of_columns_row df c r).
  - rewrite E. left.
  - apply cell_dom, Hall. left.
Qed.

Lemma pd_concat_pair_records (a b : DataFrame) :
  df_records (pd_concat [a; b]) = df_records a ++ df_records b.
Proof. unfold pd_concat. simpl. by rewrite app_nil_r. Qed.

Lemma merge_frames_records (c : string) (e d : DataFrame) :
  (forall r, r ∈ df_records e -> is_Some (cell c r)) ->
  df_records (merge_frames e d) = df_records e ++ df_records d.
Proof.
  intros Hall. unfold merge_frames.
  destruct (df_empty e) eqn:E; cbn [negb]; [|apply pd_concat_pair_records].
  unfold df_empty in E. apply orb_true_iff in E as [E|E].
  - apply bool_decide_eq_true in E. by rewrite E.
  - apply bool_decide_eq_true in E.
    rewrite (rows_nil_of_missing_column e c); [done|done|].
    rewrite E. set_solver.
Qed.

Lemma merge_frames_delta_rows (e d : DataFrame) (r : row) :
  r ∈ df_records d -> r ∈ df_records (merge_frames e d).
Proof.
  intros Hr. unfold merge_frames. destruct (df_empty e); cbn [negb]; [done|].
  rewrite pd_concat_pair_records. apply elem_of_app. by right.
Qed.

Lemma merge_frames_existing_rows (c : string) (e d : DataFrame) (r : row) :
  r ∈ df_records e -> is_Some (cell c r) ->
  df_records (merge_frames e d) = df_records e ++ df_records d.
Proof.
  intros Hr Hc. unfold merge_frames.
  destruct (df_empty e) eqn:E; cbn [negb]; [|apply pd_concat_pair_records].
  exfalso. unfold df_empty in E. apply orb_true_iff in E as [E|E];
    apply bool_decide_eq_true in E.
  - rewrite E in Hr. by apply elem_of_nil in Hr.
  - pose proof (elem_of_columns_row e c r Hr (cell_dom c r Hc)) as H.
    rewrite E in H. set_solver.
Qed.

Section Merge.

Variable argsort : list (value * row) -> list (value * row).

(** What is assumed of numpy's sort: it rearranges its input, and the
    result is in ascending key order when the keys can be compared. *)
Hypothesis argsort_perm : forall ks, argsort ks ≡ₚ ks.
Hypothesis argsort_sorted :
  forall ks, comparable ks.*1 = true -> StronglySorted key_le (argsort ks).

(** [sort_values] on a column every row has a cell in: the rows are
    rearranged, and a row never comes before a row with a smaller key. *)
Lemma sort_values_all_keyed (c : string) (df sorted : DataFrame) :
  (forall r, r ∈ df_records df -> is_Some (cell c r)) ->
  sort_values argsort c df = Ok sorted ->
  df_records sorted ≡ₚ df_records df /\
  (forall l1 r l2 r' a b,
      df_records sorted = l1 ++ r :: l2 -> r' ∈ l1 ->
      cell c r' = Some a -> cell c r = Some b -> value_le a b).
Proof.
  intros Hall Hs. unfold sort_values in Hs.
  destruct (comparable _) eqn:Hc; [|discriminate].
  injection Hs as <-. cbn [df_records with_records].
  destruct (keyed_all c _ Hall) as [Hk Hna]. rewrite Hna, app_nil_r.
  split.
  { rewrite <- Hk at 2. by rewrite argsort_perm. }
  intros l1 r l2 r' a b Heq Hr' Ha Hb.
  apply fmap_app_inv in Heq as (p1 & p2 & -> & Hp2 & Heq).
  symmetry in Hp2. apply fmap_cons_inv in Hp2 as ([v x] & p3 & Hx & _ & ->).
  simpl in Hx. subst x.
  apply list_elem_of_fmap in Hr' as ([v' x'] & Hx' & Hin'). simpl in Hx'. subst x'.
  pose proof (argsort_sorted _ Hc) as Hsorted. rewrite Heq in Hsorted.
  assert (key_le (v', r') (v, r)) as Hle.
  { eapply StronglySorted_app_1_elem_of; [exact Hsorted|done|left]. }
  assert ((v', r') ∈ keyed c (df_records df)) as H1.
  { rewrite <- (argsort_perm (keyed c (df_records df))), Heq.
    apply elem_of_app. by left. }
  assert ((v, r) ∈ keyed c (df_records df)) as H2.
  { rewrite <- (argsort_perm (keyed c (df_records df))), Heq.
    apply elem_of_app. right. left. }
  apply keyed_elem_of in H1 as [_ H1]. apply keyed_elem_of in H2 as [_ H2].
  unfold key_le in Hle. simpl in Hle. congruence.
Qed.

Lemma example_rows_carry (r : row) :
  r ∈ df_records (pd_DataFrame [row_a]) ++ df_records (pd_DataFrame [row_b]) ->
  is_Some (cell "pk" r) /\ is_Some (cell ":updated_at" r).
Proof.
  simpl. intros [->|[->|[]%elem_of_nil]%elem_of_cons]%elem_of_cons;
    split; vm_compute; eauto.
Qed.

(** C3.  Merging existing rows with a delta, all rows carrying the
    primary key and [:updated_at]: whenever the merge yields a table, the
    table has at most one row per primary key, its rows are input rows,
    every input key is still present, and the row kept for a key has the
    largest update timestamp among the input rows with that key.  The
    merge does yield a table when the timestamps can be compared with one
    another.  In particular existing [{pk=1, ts=10, v="a"}] merged with
    delta [{pk=1, ts=12, v="b"}] yields exactly the row with [v="b"]. *)
Theorem upsert_keeps_newest_per_key (pk : string) (existing delta : DataFrame) :
  (forall r, r ∈ df_records existing ++ df_records delta ->
             is_Some (cell pk r) /\ is_Some (cell ":updated_at" r)) ->
  (forall out, upsert argsort pk existing delta = Ok out ->
     NoDup (cell pk <$> df_records out)
     /\ (forall r, r ∈ df_records out -> r ∈ df_records existing ++ df_records delta)
     /\ (forall r, r ∈ df_records existing ++ df_records delta ->
                   exists r', r' ∈ df_records out /\ cell pk r' = cell pk r)
     /\ (forall r r' a b,
            r ∈ df_records out -> r' ∈ df_records existing ++ df_records delta ->
            cell pk r' = cell pk r ->
            cell ":updated_at" r' = Some a -> cell ":updated_at" r = Some b ->
            value_le a b))
  /\ (comparable (omap (cell ":updated_at")
                       (df_records existing ++ df_records delta)) = true ->
      exists out, upsert argsort pk existing delta = Ok out)
  /\ (exists out, upsert argsort "pk" (pd_DataFrame [row_a]) (pd_DataFrame [row_b]) = Ok out
                  /\ df_records out = [row_b]).
Proof.
  assert (forall pk existing delta,
    (forall r, r ∈ df_records existing ++ df_records delta ->
               is_Some (cell pk r) /\ is_Some (cell ":updated_at" r)) ->
    (forall out, upsert argsort pk existing delta = Ok out ->
     NoDup (cell pk <$> df_records out)
     /\ (forall r, r ∈ df_records out -> r ∈ df_records existing ++ df_records delta)
     /\ (forall r, r ∈ df_records existing ++ df_records delta ->
                   exists r', r' ∈ df_records out /\ cell pk r' = cell pk r)
     /\ (forall r r' a b,
            r ∈ df_records out -> r' ∈ df_records existing ++ df_records delta ->
            cell pk r' = cell pk r ->
            cell ":updated_at" r' = Some a -> cell ":updated_at" r = Some b ->
            value_le a b))
    /\ (comparable (omap (cell ":updated_at")
                         (df_records existing ++ df_records delta)) = true ->
        exists out, upsert argsort pk existing delta = Ok out)) as General.
  { clear pk existing delta. intros pk existing delta Hall.
    assert (df_records (merge_frames existing delta)
            = df_records existing ++ df_records delta) as Hrows.
    { apply (merge_frames_records pk). intros r Hr. apply Hall, elem_of_app. by left. }
    unfold upsert, dedupe. set (final := merge_frames existing delta) in *.
    assert (forall c, (forall r, r ∈ df_records final -> is_Some (cell c r)) ->
                      c ∉ columns final -> df_records existing ++ df_records delta = [])
      as Hnil.
    { intros c Hc Hnot. rewrite <- Hrows. by apply (rows_nil_of_missing_column final c). }
    assert (forall r, r ∈ df_records final -> is_Some (cell pk r)) as Hpk.
    { intros r Hr. rewrite Hrows in Hr. by apply Hall. }
    assert (forall r, r ∈ df_records final -> is_Some (cell ":updated_at" r)) as Hts.
    { intros r Hr. rewrite Hrows in Hr. by apply Hall. }
    split.
    - intros out Hout.
      case_bool_decide as Hcpk.
      2:{ injection Hout as <-. rewrite Hrows, (Hnil pk Hpk Hcpk). simpl.
          split; [constructor|]. split; [done|].
          split; [by intros ? ?%elem_of_nil | by intros ? ? ? ? ?%elem_of_nil]. }
      case_bool_decide as Hcts.
      2:{ injection Hout as <-. cbn [df_records drop_duplicates with_records].
          rewrite Hrows, (Hnil _ Hts Hcts). simpl.
          split; [constructor|]. split; [done|].
          split; [by intros ? ?%elem_of_nil | by intros ? ? ? ? ?%elem_of_nil]. }
      destruct (sort_values argsort ":updated_at" final) as [sorted|e] eqn:Hs;
        [|discriminate].
      injection Hout as <-. cbn [df_records drop_duplicates with_records].
      destruct (sort_values_all_keyed _ _ _ Hts Hs) as [Hperm Hmax].
      rewrite Hrows in Hperm.
      split; [apply drop_duplicates_last_NoDup|].
      split.
      { intros r Hr%drop_duplicates_last_elem_of. by rewrite <- Hperm. }
      split.
      { intros r Hr. apply drop_duplicates_last_survivor. by rewrite Hperm. }
      intros r r' a b Hr Hr' Hsame Ha Hb.
      apply drop_duplicates_last_is_last in Hr as (l1 & l2 & Heq & Hlast).
      rewrite <- Hperm, Heq in Hr'.
      apply elem_of_app in Hr' as [Hr'|Hr'].
      { eapply Hmax; eauto. }
      apply elem_of_cons in Hr' as [->|Hr'].
      { assert (a = b) as -> by congruence. apply value_le_refl. }
      exfalso. apply Hlast. rewrite <- Hsame. apply list_elem_of_fmap. eauto.
    - intros Hcmp.
      case_bool_decide; [|eauto]. case_bool_decide; [|eauto].
      unfold sort_values. rewrite keyed_cells, Hrows, Hcmp. eauto. }
  intros Hall. destruct (General pk existing delta Hall) as [Ha Hb].
  split; [exact Ha|]. split; [exact Hb|].
  destruct (General "pk" (pd_DataFrame [row_a]) (pd_DataFrame [row_b])
              example_rows_carry) as [Hprop Hex].
  destruct Hex as [out Hout]; [by vm_compute|].
  exists out. split; [done|].
  destruct (Hprop out Hout) as (Hnd & Hsub & Hsurv & Hmax).
  assert (forall x, x ∈ df_records out -> x = row_b) as Hall_b.
  { intros x Hx. pose proof (Hsub x Hx) as Hin. simpl in Hin.
    apply elem_of_cons in Hin as [->|Hin].
    - exfalso.
      assert (value_le (VInt 12) (VInt 10)) as Hle.
      { apply (Hmax row_a row_b); [done|simpl; right; left|by vm_compute..]. }
      vm_compute in Hle. discriminate.
    - apply elem_of_cons in Hin as [->|Hin]; [done|]. by apply elem_of_nil in Hin. }
  destruct (Hsurv row_b) as (r' & Hr' & _); [simpl; right; left|].
  destruct (df_records out) as [|x [|y l]] eqn:E.
  - by apply elem_of_nil in Hr'.
  - f_equal. apply Hall_b. left.
  - exfalso. rewrite (Hall_b x), (Hall_b y) in Hnd; [|right; left|left].
    rewrite !fmap_cons in Hnd. apply NoDup_cons in Hnd as [Hnd _].
    apply Hnd. left.
Qed.

Lemma NoDup_fmap_elem_inj {A B} (f : A -> B) (l : list A) (x y : A) :
  NoDup (f <$> l) -> x ∈ l -> y ∈ l -> f x = f y -> x = y.
Proof.
  intros Hnd [i Hi]%list_elem_of_lookup_1 [j Hj]%list_elem_of_lookup_1 Hf.
  assert (i = j) as ->.
  { eapply (NoDup_lookup _ i j (f x) Hnd).
    - by rewrite list_lookup_fmap, Hi.
    - by rewrite list_lookup_fmap, Hj, Hf. }
  congruence.
Qed.

(** C4.  When no row of the merged table has an [:updated_at] column the
    merge yields a table; if the primary-key column is there, the table
    is the concatenation (existing rows, then delta rows) with only the
    last occurrence of each key kept; and for a key carried by both an
    existing row and a delta row, the one row kept for that key is the
    last delta row with that key. *)
Theorem upsert_without_timestamp_delta_wins (pk : string) (existing delta : DataFrame) :
  ":updated_at" ∉ columns (merge_frames existing delta) ->
  exists out,
    upsert argsort pk existing delta = Ok out
    /\ (pk ∈ columns (merge_frames existing delta) ->
        df_records out
        = drop_duplicates_last pk (df_records (merge_frames existing delta))
        /\ (df_empty existing = false ->
            df_records (merge_frames existing delta)
            = df_records existing ++ df_records delta))
    /\ (forall k re rd,
          re ∈ df_records existing -> rd ∈ df_records delta ->
          cell pk re = Some k -> cell pk rd = Some k ->
          exists r d1 d2,
            df_records delta = d1 ++ r :: d2
            /\ cell pk r = Some k
            /\ (Some k ∉ cell pk <$> d2)
            /\ r ∈ df_records out
            /\ (forall r', r' ∈ df_records out -> cell pk r' = Some k -> r' = r)).
Proof.
  intros Hts. unfold upsert, dedupe.
  set (final := merge_frames existing delta) in *.
  rewrite (bool_decide_eq_false_2 _ Hts).
  exists (if bool_decide (pk ∈ columns final) then drop_duplicates pk final else final).
  split; [by case_bool_decide|].
  split.
  { intros Hpk. rewrite (bool_decide_eq_true_2 _ Hpk). split; [done|].
    intros He. subst final. unfold merge_frames. rewrite He. cbn [negb].
    apply pd_concat_pair_records. }
  intros k re rd Hre Hrd Hke Hkd.
  assert (df_records final = df_records existing ++ df_records delta) as Hrows.
  { apply (merge_frames_existing_rows pk existing delta re); [done|]. by rewrite Hke. }
  assert (pk ∈ columns final) as Hpk.
  { apply (elem_of_columns_row final pk rd).
    - by apply merge_frames_delta_rows.
    - apply cell_dom. by rewrite Hkd. }
  rewrite (bool_decide_eq_true_2 _ Hpk).
  cbn [df_records drop_duplicates with_records]. rewrite Hrows.
  destruct (drop_duplicates_last_survivor pk
              (df_records existing ++ df_records delta) rd) as (r & Hr & Hkr).
  { apply elem_of_app. by right. }
  rewrite Hkd in Hkr.
  destruct (drop_duplicates_last_is_last _ _ _ Hr) as (l1 & l2 & Heq & Hlast).
  rewrite Hkr in Hlast.
  assert (exists d1, df_records delta = d1 ++ r :: l2) as [d1 Hd].
  { apply app_eq_inv in Heq as [(m & He & Hm)|(m & Hl1 & Hm)].
    - destruct m as [|x m]; simpl in Hm.
      + exists []. by rewrite <- Hm.
      + injection Hm as -> ->. exfalso. apply Hlast.
        apply list_elem_of_fmap. exists rd. split; [done|].
        apply elem_of_app. by right.
    - eauto. }
  exists r, d1, l2. repeat split; try done.
  intros r' Hr' Hkr'.
  apply (NoDup_fmap_elem_inj (cell pk) _ r' r
           (drop_duplicates_last_NoDup pk _) Hr' Hr). congruence.
Qed.

Lemma upsert_keys_NoDup (pk : string) (existing delta out : DataFrame) :
  pk ∈ columns (merge_frames existing delta) ->
  upsert argsort pk existing delta = Ok out ->
  NoDup (cell pk <$> df_records out).
Proof.
  intros Hpk Hout. unfold upsert, dedupe in Hout.
  rewrite (bool_decide_eq_true_2 _ Hpk) in Hout.
  assert (exists l, df_records out = drop_duplicates_last pk l) as [l ->].
  { case_bool_decide.
    - destruct (sort_values _ _ _) as [sorted|]; [|discriminate].
      injection Hout as <-. by eexists.
    - injection Hout as <-. by eexists. }
  apply drop_duplicates_last_NoDup.
Qed.

(** C5, as the code has it.  When the primary-key column is absent from
    the merged table, that is when no row carries the field, the merge
    returns the merged table itself: every row is retained as it is and
    in order.  When the column is there, the cells of the rows that are
    kept are pairwise different, a missing cell counting as a value of
    its own: at most one row without a key is kept. *)
Theorem upsert_rows_without_primary_key (pk : string) (existing delta : DataFrame) :
  (pk ∉ columns (merge_frames existing delta) ->
   upsert argsort pk existing delta = Ok (merge_frames existing delta))
  /\ (pk ∈ columns (merge_frames existing delta) ->
      forall out, upsert argsort pk existing delta = Ok out ->
        NoDup (cell pk <$> df_records out)
        /\ (forall r1 r2, r1 ∈ df_records out -> r2 ∈ df_records out ->
              cell pk r1 = None -> cell pk r2 = None -> r1 = r2)).
Proof.
  split.
  - intros Hpk. unfold upsert, dedupe. by rewrite (bool_decide_eq_false_2 _ Hpk).
  - intros Hpk out Hout.
    pose proof (upsert_keys_NoDup pk existing delta out Hpk Hout) as Hnd.
    split; [exact Hnd|].
    intros r1 r2 H1 H2 Hn1 Hn2.
    apply (NoDup_fmap_elem_inj (cell pk) _ r1 r2 Hnd H1 H2). congruence.
Qed.

End Merge.

Lemma upsert_keeps_newest_per_key_witness :
  exists out,
    upsert stable_argsort "pk" (pd_DataFrame [row_a]) (pd_DataFrame [row_b]) = Ok out
    /\ NoDup (cell "pk" <$> df_records out)
    /\ df_records out = [row_b].
Proof.
  destruct (upsert_keeps_newest_per_key stable_argsort stable_argsort_perm
              stable_argsort_sorted "pk" (pd_DataFrame [row_a]) (pd_DataFrame [row_b])
              example_rows_carry) as (Hprop & Hex & _).
  destruct Hex as [out Hout]; [vm_compute; reflexivity|].
  exists out. split; [exact Hout|].
  split; [exact (proj1 (Hprop out Hout))|].
  vm_compute in Hout. injection Hout as <-. vm_compute. reflexivity.
Defined.

Lemma example_no_timestamp :
  ":updated_at" ∉ columns (merge_frames (pd_DataFrame [row_key7_old])
                                         (pd_DataFrame [row_nokey_a; row_key7_new])).
Proof. intros H. pose proof (bool_decide_pack _ H) as Hb. vm_compute in Hb. exact Hb. Qed.

Lemma upsert_without_timestamp_delta_wins_witness :
  exists out,
    upsert stable_argsort "contractor_id" (pd_DataFrame [row_key7_old])
           (pd_DataFrame [row_nokey_a; row_key7_new]) = Ok out
    /\ row_key7_new ∈ df_records out.
Proof.
  destruct (upsert_without_timestamp_delta_wins stable_argsort "contractor_id"
              (pd_DataFrame [row_key7_old])
              (pd_DataFrame [row_nokey_a; row_key7_new])
              example_no_timestamp) as (out & Hout & _ & Hwin).
  exists out. split; [exact Hout|].
  vm_compute in Hout. injection Hout as <-. vm_compute. right. left.
Defined.

Lemma example_no_pk_column :
  "contractor_id" ∉ columns (merge_frames (pd_DataFrame [row_nokey_a])
                                          (pd_DataFrame [row_nokey_a; row_nokey_b])).
Proof. intros H. pose proof (bool_decide_pack _ H) as Hb. vm_compute in Hb. exact Hb. Qed.

Lemma example_pk_column :
  "contractor_id" ∈ columns (merge_frames (pd_DataFrame [])
                               (pd_DataFrame [row_nokey_a; row_nokey_b; row_key7_new])).
Proof.
  refine (bool_decide_unpack _ _). vm_compute. exact I.
Qed.

Lemma upsert_rows_without_primary_key_witness :
  (exists out,
      upsert stable_argsort "contractor_id" (pd_DataFrame [row_nokey_a])
             (pd_DataFrame [row_nokey_a; row_nokey_b]) = Ok out
      /\ df_records out = [row_nokey_a; row_nokey_a; row_nokey_b])
  /\ (exists out,
        upsert stable_argsort "contractor_id" (pd_DataFrame [])
               (pd_DataFrame [row_nokey_a; row_nokey_b; row_key7_new]) = Ok out
        /\ NoDup (cell "contractor_id" <$> df_records out)).
Proof.
  split.
  - eexists. split.
    + exact (proj1 (upsert_rows_without_primary_key stable_argsort "contractor_id"
               (pd_DataFrame [row_nokey_a]) (pd_DataFrame [row_nokey_a; row_nokey_b]))
               example_no_pk_column).
    + vm_compute. reflexivity.
  - eexists. split; [vm_compute; reflexivity|].
    refine (proj1 (proj2 (upsert_rows_without_primary_key stable_argsort "contractor_id"
              (pd_DataFrame []) (pd_DataFrame [row_nokey_a; row_nokey_b; row_key7_new]))
              example_pk_column _ _)).
    vm_compute. reflexivity.
Defined.

(** C5 as stated fails: two rows lack the primary key while a third row
    carries it; the first of the two is dropped. *)
Lemma rows_without_pk_are_deduplicated :
  row_nokey_a !! "contractor_id" = None
  /\ row_nokey_b !! "contractor_id" = None
  /\ exists out,
       upsert stable_argsort "contractor_id" (pd_DataFrame [])
              (pd_DataFrame [row_nokey_a; row_nokey_b; row_key7_new]) = Ok out
       /\ df_records out = [row_nokey_b; row_key7_new]
       /\ row_nokey_a ∉ df_records out.
Proof.
  split; [by vm_compute|]. split; [by vm_compute|].
  eexists. split; [vm_compute; reflexivity|].
  split; [vm_compute; reflexivity|].
  cbn [df_records].
  intros [H|[H|[]%elem_of_nil]%elem_of_cons]%elem_of_cons;
    apply (f_equal (fun m : row => m !! "v")) in H; vm_compute in H; discriminate.
Qed.

(** ** The paginated fetch (C9) *)

Lemma pages_requested_requests (key sid : string) (wh : option string)
    (n offset : nat) (w : World) :
  requests (pages_requested key sid wh offset n w)
  = requests w
    ++ ((fun i => (sid, page_params wh (offset + i * 2000))) <$> seq 0 n).
Proof.
  revert offset w. induction n as [|n IH]; intros offset w.
  - cbn [pages_requested seq fmap list_fmap]. by rewrite app_nil_r.
  - cbn [pages_requested]. rewrite IH. cbn [requests add_request add_log].
    rewrite <- app_assoc. f_equal. cbn [seq fmap list_fmap app].
    f_equal.
    + unfold page_params. do 2 f_equal. lia.
    + rewrite <- fmap_S_seq, <- list_fmap_compose. apply list_fmap_ext.
      intros i x _. cbn. do 2 f_equal. lia.
Qed.

Section Fetch.

Variable soda_get_json : string -> params -> result (list row).

Lemma fetch_loop_pages (key sid : string) (wh : option string)
    (full : list (list row)) (last : list row) :
  forall (offset fuel : nat) (acc : list row) (w : World),
    (forall i rows, full !! i = Some rows ->
       soda_get_json sid (page_params wh (offset + i * 2000)) = Ok rows
       /\ 2000 <= length rows) ->
    soda_get_json sid (page_params wh (offset + length full * 2000)) = Ok last ->
    length last < 2000 ->
    length full < fuel ->
    fetch_loop soda_get_json fuel key sid wh offset acc w
    = Some (Ok (acc ++ concat full ++ last),
            pages_requested key sid wh offset (S (length full)) w).
Proof.
  induction full as [|p full IH]; intros offset fuel acc w Hfull Hlast Hshort Hfuel.
  - destruct fuel as [|fuel]; [lia|].
    cbn [length Nat.mul] in Hlast. rewrite Nat.add_0_r in Hlast.
    cbn [fetch_loop]. unfold bind, log, get_json.
    fold (page_params wh offset). rewrite Hlast.
    cbn [length pages_requested concat app].
    destruct last as [|r last']; [unfold ret; by rewrite app_nil_r|].
    apply Nat.ltb_lt in Hshort. rewrite Hshort. reflexivity.
  - destruct fuel as [|fuel]; [cbn [length] in Hfuel; lia|].
    destruct (Hfull 0 p eq_refl) as [Hp Hlen].
    cbn [Nat.mul] in Hp. rewrite Nat.add_0_r in Hp.
    cbn [fetch_loop]. unfold bind at 1 2, log, get_json.
    fold (page_params wh offset). rewrite Hp.
    destruct p as [|r p']; [cbn [length] in Hlen; lia|].
    assert ((length (r :: p') <? 2000)%nat = false) as -> by (by apply Nat.ltb_ge).
    rewrite (IH (offset + 2000) fuel (acc ++ r :: p')).
    + cbn [length pages_requested concat]. by rewrite <- !app_assoc.
    + intros i rows Hi. replace (offset + 2000 + i * 2000) with (offset + S i * 2000) by lia.
      by apply Hfull.
    + cbn [length] in Hlast.
      replace (offset + 2000 + length full * 2000)
        with (offset + S (length full) * 2000) by lia. exact Hlast.
    + exact Hshort.
    + cbn [length] in Hfuel. lia.
Qed.

(** C9.  If the page at offset [n * 2000] has fewer than 2000 rows
    (possibly none) and the pages before it are served and have at least
    2000 rows each, the fetch returns, given fuel for one iteration per
    page: its result is the rows of all these pages in order, and it
    has asked for the pages at offsets 0, 2000, 4000, ... up to the
    short page and for no other. *)
Theorem fetch_socrata_pages_terminates (key sid : string) (since : option string)
    (full : list (list row)) (last : list row) (fuel : nat) (w : World) :
  (forall i rows, full !! i = Some rows ->
     soda_get_json sid (page_params (where_clause since) (i * 2000)) = Ok rows
     /\ 2000 <= length rows) ->
  soda_get_json sid (page_params (where_clause since) (length full * 2000)) = Ok last ->
  length last < 2000 ->
  length full < fuel ->
  exists w',
    fetch_socrata_pages soda_get_json fuel key sid since w
    = Some (Ok (concat full ++ last), w')
    /\ requests w'
       = requests w
         ++ ((fun i => (sid, page_params (where_clause since) (i * 2000)))
               <$> seq 0 (S (length full))).
Proof.
  intros Hfull Hlast Hshort Hfuel.
  exists (pages_requested key sid (where_clause since) 0 (S (length full)) w).
  split.
  - unfold fetch_socrata_pages.
    by rewrite (fetch_loop_pages key sid (where_clause since) full last 0 fuel [] w).
  - by rewrite pages_requested_requests.
Qed.

End Fetch.

Lemma fetch_socrata_pages_terminates_witness :
  exists w',
    fetch_socrata_pages full_then_empty 2 "contractors" "3pee-9qhc" None
      (mkWorld ∅ ∅ [] [] [] (mkDatetime 2025 1 10 10 0 0 0 None))
    = Some (Ok full_page, w')
    /\ length (requests w') = 2.
Proof.
  destruct (fetch_socrata_pages_terminates full_then_empty "contractors" "3pee-9qhc"
              None [full_page] [] 2
              (mkWorld ∅ ∅ [] [] [] (mkDatetime 2025 1 10 10 0 0 0 None)))
    as (w' & Hrun & Hreq).
  - intros [|[|i]] rows Hi; [|discriminate..].
    change ([full_page] !! 0) with (Some full_page) in Hi.
    assert (rows = full_page) as -> by congruence.
    split; [reflexivity|]. unfold full_page. rewrite length_replicate. lia.
  - reflexivity.
  - cbn [length]. lia.
  - cbn [length]. lia.
  - exists w'. split.
    + rewrite Hrun. cbn [concat]. by rewrite !app_nil_r.
    + rewrite Hreq. reflexivity.
Defined.

(** ** Frame reasoning for the effect monad *)

#[global] Instance unchanged_preorder {X} (f : World -> X) : PreOrder (unchanged f).
Proof.
  split; [intros w; reflexivity|].
  intros a b c Hab Hbc. unfold unchanged in *. congruence.
Qed.

#[global] Instance r2_same_on_preorder (S : string -> Prop) : PreOrder (r2_same_on S).
Proof.
  split; [intros w k _; reflexivity|].
  intros a b c Hab Hbc k Hk. by rewrite (Hbc k Hk), (Hab k Hk).
Qed.

#[global] Instance requests_extend_preorder (ok : string * params -> Prop) :
  PreOrder (requests_extend ok).
Proof.
  split.
  - intros w. exists []. by rewrite app_nil_r.
  - intros a b c (n1 & H1 & F1) (n2 & H2 & F2). exists (n1 ++ n2).
    rewrite H2, H1, app_assoc. split; [done|]. by apply Forall_app.
Qed.

Section Preserves.

Context (P : World -> World -> Prop) `{!PreOrder P}.

Lemma preserves_ret {A} (a : A) : preserves P (ret a).
Proof. intros w r w' H. unfold ret in H. by simplify_eq. Qed.

Lemma preserves_raise {A} (e : exn) : preserves P (@raise A e).
Proof. intros w r w' H. unfold raise in H. by simplify_eq. Qed.

Lemma preserves_lift {A} (x : result A) : preserves P (lift x).
Proof. destruct x; [apply preserves_ret | apply preserves_raise]. Qed.

Lemma preserves_bind {A B} (m : M A) (k : A -> M B) :
  preserves P m -> (forall a, preserves P (k a)) -> preserves P (bind m k).
Proof.
  intros Hm Hk w r w' H. unfold bind in H.
  destruct (m w) as [[[a|e] w1]|] eqn:E; [| |discriminate].
  - trans w1; [by eapply Hm | by eapply Hk].
  - simplify_eq. by eapply Hm.
Qed.

Lemma preserves_try_except {A} (m : M A) (h : exn -> M A) :
  preserves P m -> (forall e, preserves P (h e)) -> preserves P (try_except m h).
Proof.
  intros Hm Hh w r w' H. unfold try_except in H.
  destruct (m w) as [[[a|e] w1]|] eqn:E; [| |discriminate].
  - simplify_eq. by eapply Hm.
  - trans w1; [by eapply Hm | by eapply Hh].
Qed.

(** A computation that only reads the world. *)
Lemma preserves_read {A} (f : World -> result A) :
  preserves P (fun w => Some (f w, w)).
Proof. intros w r w' H. by simplify_eq. Qed.

End Preserves.

Lemma unchanged_r2_same_on (S : string -> Prop) {A} (m : M A) :
  preserves (unchanged r2) m -> preserves (r2_same_on S) m.
Proof. intros H w r w' Hm k _. by rewrite (H w r w' Hm). Qed.

Lemma unchanged_requests_extend (ok : string * params -> Prop) {A} (m : M A) :
  preserves (unchanged requests) m -> preserves (requests_extend ok) m.
Proof.
  intros H w r w' Hm. exists []. rewrite (H w r w' Hm), app_nil_r. by split.
Qed.

(** The effect of each primitive, field by field. *)
Ltac primitive :=
  let H := fresh "H" in
  intros ? ? ? H;
  repeat (match type of H with
          | context [match ?x with _ => _ end] => destruct x eqn:?
          end);
  simplify_eq; try reflexivity.

Lemma log_requests (l : log_record) : preserves (unchanged requests) (log l).
Proof. unfold log. primitive. Qed.

Lemma log_r2 (l : log_record) : preserves (unchanged r2) (log l).
Proof. unfold log. primitive. Qed.

Lemma utcnow_requests : preserves (unchanged requests) utcnow.
Proof. unfold utcnow. primitive. Qed.

Lemma utcnow_r2 : preserves (unchanged r2) utcnow.
Proof. unfold utcnow. primitive. Qed.

Lemma local_write_requests (p : string) (c : content) :
  preserves (unchanged requests) (local_write p c).
Proof. unfold local_write. primitive. Qed.

Lemma local_write_r2 (p : string) (c : content) :
  preserves (unchanged r2) (local_write p c).
Proof. unfold local_write. primitive. Qed.

Lemma storage_write_requests (k : string) (c : content) :
  preserves (unchanged requests) (storage_write k c).
Proof. unfold storage_write. primitive. Qed.

Lemma storage_rename_requests (a b : string) :
  preserves (unchanged requests) (storage_rename a b).
Proof. unfold storage_rename. primitive. Qed.

Lemma read_parquet_requests (k : string) :
  preserves (unchanged requests) (read_parquet k).
Proof. unfold read_parquet. primitive. Qed.

Lemma read_parquet_r2 (k : string) : preserves (unchanged r2) (read_parquet k).
Proof. unfold read_parquet. primitive. Qed.

Lemma storage_write_r2 (S : string -> Prop) (k : string) (c : content) :
  ~ S k -> preserves (r2_same_on S) (storage_write k c).
Proof.
  intros Hk. unfold storage_write. primitive;
    intros k' Hk'; cbn; apply lookup_insert_ne; by intros ->.
Qed.

Lemma storage_rename_r2 (S : string -> Prop) (a b : string) :
  ~ S a -> ~ S b -> preserves (r2_same_on S) (storage_rename a b).
Proof.
  intros Ha Hb. unfold storage_rename. primitive.
  intros k' Hk'. cbn. rewrite lookup_insert_ne by (by intros ->).
  apply lookup_delete_ne. by intros ->.
Qed.

(** ** Paths and object keys *)

Lemma string_app_cons (a : ascii) (s t : string) :
  String a s +:+ t = String a (s +:+ t).
Proof. reflexivity. Qed.

Lemma string_app_assoc (a b c : string) : (a +:+ b) +:+ c = a +:+ b +:+ c.
Proof.
  induction a as [|x a IH]; [done|].
  by rewrite !string_app_cons, IH.
Qed.

Lemma string_app_nil_r (a : string) : a +:+ "" = a.
Proof. induction a as [|x a IH]; [done|]. by rewrite string_app_cons, IH. Qed.

Lemma string_app_neq (a b c : string) : b <> c -> a +:+ b <> a +:+ c.
Proof. intros Hbc Heq. by apply (inj (String.app a)) in Heq. Qed.

Lemma posix_app (a b : string) : posix (a +:+ b) = posix a +:+ posix b.
Proof.
  unfold posix. induction a as [|x a IH]; [done|].
  rewrite string_app_cons. cbn [str_replace]. rewrite IH.
  destruct (Ascii.eqb x "\"); [by rewrite string_app_assoc | done].
Qed.

Lemma _norm_rel_cons (c : ascii) (s : string) :
  c <> "/"%char -> c <> "\"%char ->
  _norm_rel (String c s) = Ok (posix (String c s)).
Proof.
  intros H1 H2. unfold _norm_rel, posix. apply Ascii.eqb_neq in H1, H2.
  cbn [lstrip_slash]. rewrite H1. cbn [str_replace]. by rewrite H2.
Qed.

Lemma _abs_raw_key (self : IngestJob) (key : string) (b : bool) :
  _abs (raw_key self key b) = Ok (raw_object self key b).
Proof.
  unfold _abs, raw_key, raw_object, R2_RAW_PREFIX.
  rewrite (string_app_cons "r" "aw"), _norm_rel_cons by done.
  rewrite <- string_app_cons, !posix_app. by destruct b.
Qed.

Lemma _abs_meta_key (self : IngestJob) (key : string) :
  _abs (meta_key self key) = Ok (meta_object self key).
Proof.
  unfold _abs, meta_key, meta_object, R2_RAW_PREFIX.
  rewrite (string_app_cons "r" "aw"), _norm_rel_cons by done.
  by rewrite <- string_app_cons, !posix_app.
Qed.

Lemma _abs_curated_file (key : string) :
  _abs (curated_dir key +:+ "/data.parquet") = Ok (curated_object key).
Proof.
  unfold _abs, curated_dir, curated_object, R2_CURATED_PREFIX.
  rewrite !string_app_assoc.
  rewrite (string_app_cons "c" "urated"), _norm_rel_cons by done.
  by rewrite <- string_app_cons, !posix_app.
Qed.

Lemma raw_object_not_curated (self : IngestJob) (key : string) (b : bool) (sfx : string) :
  ~ under_curated (raw_object self key b +:+ sfx).
Proof. unfold under_curated. cbn. discriminate. Qed.

Lemma meta_object_not_curated (self : IngestJob) (key : string) (sfx : string) :
  ~ under_curated (meta_object self key +:+ sfx).
Proof. unfold under_curated. cbn. discriminate. Qed.

Lemma curated_object_under_curated (key : string) : under_curated (curated_object key).
Proof.
  unfold under_curated, curated_object.
  destruct (posix key +:+ "/parquet/data.parquet"); reflexivity.
Qed.

(** ** Frames of the storage helper and of the job's steps *)

Lemma preserves_bind_ret (P : World -> World -> Prop) {A B} (a : A) (k : A -> M B) :
  preserves P (k a) -> preserves P (bind (ret a) k).
Proof. intros Hk w r w' H. unfold bind, ret in H. by eapply Hk. Qed.

Create HintDb frame.

#[local] Hint Resolve log_requests log_r2 utcnow_requests utcnow_r2
  local_write_requests local_write_r2 storage_write_requests
  storage_rename_requests read_parquet_requests read_parquet_r2 : frame.
#[local] Hint Resolve unchanged_requests_extend unchanged_r2_same_on : frame.

Ltac frame :=
  repeat first
    [ progress cbn [lift]
    | apply preserves_ret; [apply _]
    | apply preserves_raise; [apply _]
    | apply preserves_lift; [apply _]
    | apply preserves_read; [apply _]
    | match goal with
      | |- preserves _ (bind (ret _) _) => apply preserves_bind_ret
      | |- preserves _ (bind _ _) =>
          apply preserves_bind; [apply _ | | intros ?]
      | |- preserves _ (try_except _ _) =>
          apply preserves_try_except; [apply _ | | intros ?]
      | |- preserves _ (match ?x with _ => _ end) => destruct x
      end
    | solve [eauto with frame] ].

Lemma write_bytes_requests (rel : string) (data : content) :
  preserves (unchanged requests) (write_bytes rel data).
Proof. unfold write_bytes. frame. Qed.

Lemma write_bytes_r2 (S : string -> Prop) (rel p : string) (data : content) :
  _abs rel = Ok p -> ~ S p -> ~ S (p +:+ ".tmp") ->
  preserves (r2_same_on S) (write_bytes rel data).
Proof.
  intros Hp H1 H2. unfold write_bytes. rewrite Hp. cbn [lift].
  apply preserves_bind_ret. apply preserves_bind; [apply _ | |].
  - by apply storage_write_r2.
  - intros _. by apply storage_rename_r2.
Qed.

Lemma exists__requests (rel : string) : preserves (unchanged requests) (exists_ rel).
Proof. unfold exists_. frame. Qed.

Lemma exists__r2 (rel : string) : preserves (unchanged r2) (exists_ rel).
Proof. unfold exists_. frame. Qed.

Lemma read_json_requests (rel : string) : preserves (unchanged requests) (read_json rel).
Proof. unfold read_json. frame. primitive. Qed.

Lemma read_json_r2 (rel : string) : preserves (unchanged r2) (read_json rel).
Proof. unfold read_json. frame. primitive. Qed.

Lemma list__requests (prefix : string) : preserves (unchanged requests) (list_ prefix).
Proof. unfold list_. frame. primitive. Qed.

Lemma list__r2 (prefix : string) : preserves (unchanged r2) (list_ prefix).
Proof. unfold list_. frame. primitive. Qed.

Lemma mkdirs_requests (rel : string) : preserves (unchanged requests) (mkdirs rel).
Proof. unfold mkdirs. frame. Qed.

#[local] Hint Resolve write_bytes_requests exists__requests exists__r2
  read_json_requests read_json_r2 list__requests list__r2 mkdirs_requests : frame.

Lemma read_parts_requests (files : list string) (dfs : list DataFrame) :
  preserves (unchanged requests) (read_parts files dfs).
Proof.
  revert dfs. induction files as [|f files IH]; intros dfs; cbn [read_parts]; frame.
Qed.

Lemma read_parts_r2 (files : list string) (dfs : list DataFrame) :
  preserves (unchanged r2) (read_parts files dfs).
Proof.
  revert dfs. induction files as [|f files IH]; intros dfs; cbn [read_parts]; frame.
Qed.

#[local] Hint Resolve read_parts_requests read_parts_r2 : frame.

Section JobFrames.

Variable soda_get_json : string -> params -> result (list row).
Variable argsort : list (value * row) -> list (value * row).
Variable fromisoformat : string -> result datetime.

Lemma get_json_r2 (sid : string) (q : params) :
  preserves (unchanged r2) (get_json soda_get_json sid q).
Proof. unfold get_json. primitive. Qed.

Lemma get_json_requests (ok : string * params -> Prop) (sid : string) (q : params) :
  ok (sid, q) -> preserves (requests_extend ok) (get_json soda_get_json sid q).
Proof.
  intros Hok. unfold get_json. primitive.
  exists [(sid, q)]. split; [done|]. by constructor.
Qed.

Lemma fetch_loop_r2 (fuel : nat) (key sid : string) (wh : option string)
    (offset : nat) (acc : list row) :
  preserves (unchanged r2) (fetch_loop soda_get_json fuel key sid wh offset acc).
Proof.
  revert offset acc. induction fuel as [|fuel IH]; intros offset acc.
  - intros w r w' H. discriminate.
  - cbn [fetch_loop]. pose proof get_json_r2. frame.
Qed.

Lemma fetch_loop_requests (fuel : nat) (key sid : string) (wh : option string)
    (offset : nat) (acc : list row) :
  preserves (requests_extend (fun q => q.1 = sid /\ p_where q.2 = wh))
            (fetch_loop soda_get_json fuel key sid wh offset acc).
Proof.
  revert offset acc. induction fuel as [|fuel IH]; intros offset acc.
  - intros w r w' H. discriminate.
  - cbn [fetch_loop].
    apply preserves_bind; [apply _ | frame | intros _].
    apply preserves_bind; [apply _ | by apply get_json_requests | intros rows].
    frame.
Qed.

(** A fetch that returns or raises has sent at least the first request. *)
Lemma fetch_loop_first_request (fuel : nat) (key sid : string) (wh : option string)
    (offset : nat) (acc : list row) (w w' : World) (r : result (list row)) :
  fetch_loop soda_get_json fuel key sid wh offset acc w = Some (r, w') ->
  exists q new,
    requests w' = requests w ++ q :: new
    /\ Forall (fun q => q.1 = sid /\ p_where q.2 = wh) (q :: new).
Proof.
  intros H.
  destruct (fetch_loop_requests fuel key sid wh offset acc w r w' H) as (new & Hreq & Hok).
  destruct fuel as [|fuel]; [discriminate|].
  cbn [fetch_loop] in H. unfold bind at 1 2, log, get_json in H.
  destruct (soda_get_json sid _) as [rows|e] eqn:E.
  - assert (preserves (requests_extend (fun _ => True))
              (match rows with
               | [] => ret acc
               | _ :: _ =>
                   if (length rows <? 2000)%nat then ret (acc ++ rows)
                   else fetch_loop soda_get_json fuel key sid wh (offset + 2000)
                                   (acc ++ rows)
               end)) as Hk.
    { destruct rows; [frame|]. destruct (_ <? _)%nat; [frame|].
      intros w1 r1 w2 H1.
      destruct (fetch_loop_requests _ _ _ _ _ _ _ _ _ H1) as (n & Hn & _).
      exists n. split; [done|]. by apply Forall_true. }
    destruct (Hk _ _ _ H) as (n & Hn & _). cbn in Hn.
    rewrite <- app_assoc in Hn. cbn in Hn. rewrite Hn in Hreq.
    apply app_inv_head in Hreq. subst new. eauto.
  - simplify_eq. cbn in Hreq. cbn.
    rewrite <- (app_nil_r (requests w ++ _)), <- app_assoc in Hreq.
    apply app_inv_head in Hreq. cbn in Hreq. subst new. eauto.
Qed.

Lemma fetch_socrata_pages_r2 (fuel : nat) (key sid : string) (since : option string) :
  preserves (unchanged r2) (fetch_socrata_pages soda_get_json fuel key sid since).
Proof. apply fetch_loop_r2. Qed.

Lemma fetch_since_of_r2 (b : bool) (wm : option string) :
  preserves (unchanged r2) (fetch_since_of fromisoformat b wm).
Proof. unfold fetch_since_of. frame. Qed.

Lemma fetch_since_of_requests (b : bool) (wm : option string) :
  preserves (unchanged requests) (fetch_since_of fromisoformat b wm).
Proof. unfold fetch_since_of. frame. Qed.

Lemma write_raw_r2 (self : IngestJob) (key : string) (b : bool) (data : content) :
  preserves (r2_same_on under_curated) (write_text (raw_key self key b) data).
Proof.
  apply (write_bytes_r2 _ _ (raw_object self key b)).
  - apply _abs_raw_key.
  - rewrite <- (string_app_nil_r (raw_object self key b)) at 1.
    apply raw_object_not_curated.
  - apply raw_object_not_curated.
Qed.

Lemma write_meta_r2 (self : IngestJob) (key : string) (data : content) :
  preserves (r2_same_on under_curated) (write_json (meta_key self key) data).
Proof.
  apply (write_bytes_r2 _ _ (meta_object self key)).
  - apply _abs_meta_key.
  - rewrite <- (string_app_nil_r (meta_object self key)) at 1.
    apply meta_object_not_curated.
  - apply meta_object_not_curated.
Qed.

#[local] Hint Resolve get_json_r2 fetch_loop_r2 fetch_socrata_pages_r2
  fetch_since_of_r2 fetch_since_of_requests write_raw_r2 write_meta_r2 : frame.

(** Steps 1 to 3 of [process_dataset] write under [raw/] only. *)
Lemma fetch_store_normalize_curated (fuel : nat) (self : IngestJob) (key : string)
    (config : DatasetConfig) (wm : option string) :
  preserves (r2_same_on under_curated)
    (fetch_store_normalize soda_get_json fromisoformat fuel self key config wm).
Proof. unfold fetch_store_normalize. frame. Qed.

(** C8.  When steps 1 to 3 end with a delta that is empty after
    normalisation, [process_dataset] returns normally having only logged
    that there is no data, and every object under [curated/] (the table
    and its parts included) is what it was before the call. *)
Theorem empty_delta_leaves_curated_untouched (fuel : nat) (self : IngestJob)
    (key : string) (config : DatasetConfig) (wm : option string)
    (w w1 : World) (is_bootstrap : bool) (df_delta : DataFrame) :
  fetch_store_normalize soda_get_json fromisoformat fuel self key config wm w
  = Some (Ok (is_bootstrap, df_delta), w1) ->
  df_empty df_delta = true ->
  process_dataset soda_get_json argsort fromisoformat fuel self key config wm w
  = Some (Ok tt, add_log LogNoData w1)
  /\ (forall k, under_curated k -> r2 (add_log LogNoData w1) !! k = r2 w !! k).
Proof.
  intros Hsteps Hempty. split.
  - unfold process_dataset, bind. rewrite Hsteps, Hempty. reflexivity.
  - intros k Hk. cbn [r2 add_log].
    exact (fetch_store_normalize_curated _ _ _ _ _ _ _ _ Hsteps k Hk).
Qed.

(** *** Which requests a dataset run sends *)

Lemma sends_bind_l (ok : string * params -> Prop) {A B} (m : M A) (k : A -> M B) :
  sends ok m -> (forall a, preserves (unchanged requests) (k a)) ->
  sends ok (bind m k).
Proof.
  intros Hm Hk w r w' H. unfold bind in H.
  destruct (m w) as [[[a|e] w1]|] eqn:E; [| |discriminate].
  - rewrite (Hk a w1 r w' H). by eapply Hm.
  - simplify_eq. by eapply Hm.
Qed.

Lemma sends_bind_r (ok : string * params -> Prop) {A B} (Q : A -> Prop)
    (m : M A) (k : A -> M B) :
  (forall w r w', m w = Some (r, w') ->
     requests w' = requests w /\ exists a, r = Ok a /\ Q a) ->
  (forall a, Q a -> sends ok (k a)) ->
  sends ok (bind m k).
Proof.
  intros Hm Hk w r w' H. unfold bind in H.
  destruct (m w) as [[r1 w1]|] eqn:E; [|discriminate].
  destruct (Hm w r1 w1 E) as (Hreq & a & -> & Ha).
  rewrite <- Hreq. by eapply Hk.
Qed.

Lemma fetch_since_of_result (b : bool) (wm : option string) (w w' : World)
    (r : result (option string)) :
  fetch_since_of fromisoformat b wm w = Some (r, w') ->
  requests w' = requests w
  /\ exists a, r = Ok a /\ a = since_of fromisoformat b wm.
Proof.
  unfold fetch_since_of, since_of. intros H.
  destruct wm as [s|]; [|unfold ret in H; simplify_eq; eauto].
  destruct (negb b && truthy (Some s)); [|unfold ret in H; simplify_eq; eauto].
  destruct (lagged fromisoformat s) as [x|e];
    unfold bind, log, ret in H; simplify_eq; eauto.
Qed.

Lemma to_parquet_requests (df : DataFrame) (k : string) :
  preserves (unchanged requests) (to_parquet df k).
Proof. unfold to_parquet. frame. Qed.

#[local] Hint Resolve to_parquet_requests : frame.

Lemma upsert_curated_requests (self : IngestJob) (key : string)
    (config : DatasetConfig) (b : bool) (df : DataFrame) :
  preserves (unchanged requests) (upsert_curated argsort self key config b df).
Proof. unfold upsert_curated. frame. Qed.

Lemma process_dataset_sends (fuel : nat) (self : IngestJob) (key : string)
    (config : DatasetConfig) (wm : option string) :
  sends (fun q => q.1 = soda_id config
                  /\ p_where q.2
                     = where_clause (since_of fromisoformat (select_bootstrap self wm) wm))
        (process_dataset soda_get_json argsort fromisoformat fuel self key config wm).
Proof.
  unfold process_dataset, fetch_store_normalize.
  apply sends_bind_l.
  2:{ intros [b df]. destruct (df_empty df); [frame|apply upsert_curated_requests]. }
  apply (sends_bind_r _ (fun _ => True)).
  { intros w r w' H. unfold log in H. simplify_eq. eauto. }
  intros _ _.
  apply (sends_bind_r _ (fun a => a = since_of fromisoformat (select_bootstrap self wm) wm)).
  { intros w r w'. apply fetch_since_of_result. }
  intros since ->.
  apply sends_bind_l.
  - intros w r w' H. by eapply fetch_loop_first_request.
  - intros raw_rows. frame.
Qed.

(** *** Safety lag (C6) *)

Lemma string_length_app (a b : string) :
  String.length (a +:+ b) = String.length a + String.length b.
Proof.
  induction a as [|x a IH]; [done|].
  rewrite string_app_cons. cbn [String.length]. by rewrite IH.
Qed.

Lemma isoformat_nonempty (dt : datetime) : String.eqb (isoformat dt) "" = false.
Proof.
  destruct (isoformat dt) eqn:E; [exfalso|reflexivity].
  apply (f_equal String.length) in E. unfold isoformat in E.
  rewrite !string_length_app in E. cbn [String.length] in E. lia.
Qed.

Lemma lagged_ok (wm : string) (dt dt_lag : datetime) :
  fromisoformat (str_replace "Z"%char "+00:00" wm) = Ok dt ->
  sub_hours dt SAFETY_LAG_HOURS = Ok dt_lag ->
  lagged fromisoformat wm = Ok (isoformat dt_lag).
Proof. intros H1 H2. unfold lagged. by rewrite H1, H2. Qed.

(** C6, as the code has it.  In a run that is not a bootstrap, with a
    stored watermark that parses to [dt] and whose lagged value
    [dt - 2h] is a representable date, the fetch is passed
    [isoformat (dt - 2h)]: the run sends at least one request, and every
    request it sends carries the filter
    [:updated_at > '<isoformat (dt - 2h)>']. *)
Theorem incremental_fetch_filters_on_lagged_watermark (fuel : nat)
    (self : IngestJob) (key : string) (config : DatasetConfig) (wm : string)
    (dt dt_lag : datetime) (w w' : World) (r : result unit) :
  select_bootstrap self (Some wm) = false ->
  wm <> "" ->
  fromisoformat (str_replace "Z"%char "+00:00" wm) = Ok dt ->
  sub_hours dt SAFETY_LAG_HOURS = Ok dt_lag ->
  process_dataset soda_get_json argsort fromisoformat fuel self key config (Some wm) w
  = Some (r, w') ->
  lagged fromisoformat wm = Ok (isoformat dt_lag)
  /\ exists q new,
       requests w' = requests w ++ q :: new
       /\ Forall (fun q => q.1 = soda_id config
                           /\ p_where q.2
                              = Some (":updated_at > '" +:+ isoformat dt_lag +:+ "'"))
                 (q :: new).
Proof.
  intros Hmode Hwm Hdt Hlag Hrun.
  pose proof (lagged_ok wm dt dt_lag Hdt Hlag) as Hl. split; [exact Hl|].
  destruct (process_dataset_sends fuel self key config (Some wm) w r w' Hrun)
    as (q & new & Hreq & Hok).
  exists q, new. split; [exact Hreq|].
  assert (where_clause (since_of fromisoformat (select_bootstrap self (Some wm)) (Some wm))
          = Some (":updated_at > '" +:+ isoformat dt_lag +:+ "'")) as Hw.
  { rewrite Hmode. unfold since_of. cbn [negb andb truthy].
    apply String.eqb_neq in Hwm. rewrite Hwm. cbn [negb]. rewrite Hl.
    unfold where_clause, truthy. by rewrite isoformat_nonempty. }
  by rewrite Hw in Hok.
Qed.

End JobFrames.

Lemma example_incremental_run :
  exists w',
    process_dataset one_row_source stable_argsort fromisoformat_iso 3
      (job_for "incremental" ["contractors"]) "contractors" contractors_config
      (Some "2025-01-10T10:00:00Z") (world_with_table "2025-01-10T10:00:00Z" [])
    = Some (Ok tt, w').
Proof. eexists. vm_compute. reflexivity. Qed.

Lemma incremental_fetch_filters_on_lagged_watermark_witness :
  exists w',
    process_dataset one_row_source stable_argsort fromisoformat_iso 3
      (job_for "incremental" ["contractors"]) "contractors" contractors_config
      (Some "2025-01-10T10:00:00Z") (world_with_table "2025-01-10T10:00:00Z" [])
    = Some (Ok tt, w')
    /\ exists q new,
         requests w' = q :: new
         /\ Forall (fun q => q.1 = "3pee-9qhc"
                             /\ p_where q.2
                                = Some ":updated_at > '2025-01-10T08:00:00+00:00'")
                   (q :: new).
Proof.
  destruct example_incremental_run as [w' Hrun].
  exists w'. split; [exact Hrun|].
  exact (proj2 (incremental_fetch_filters_on_lagged_watermark
           one_row_source stable_argsort fromisoformat_iso 3
           (job_for "incremental" ["contractors"]) "contractors" contractors_config
           "2025-01-10T10:00:00Z"
           (mkDatetime 2025 1 10 10 0 0 0 (Some 0%Z))
           (mkDatetime 2025 1 10 8 0 0 0 (Some 0%Z))
           (world_with_table "2025-01-10T10:00:00Z" []) w' (Ok tt)
           eq_refl ltac:(discriminate) eq_refl eq_refl Hrun)).
Defined.

(** C6 as stated fails in two places.  On the documented watermark the
    filter the source receives is written with the leading colon of the
    system field and an explicit offset, not as
    [updated_at > '2025-01-10T08:00:00Z'].  And a watermark can parse
    while its lagged value is out of range: [0001-01-01T01:00:00] is a
    valid timestamp, the subtraction overflows inside the [try], and the
    fetch goes out with no filter at all. *)
Lemma lagged_filter_differs_from_documented :
  (exists w',
      process_dataset one_row_source stable_argsort fromisoformat_iso 3
        (job_for "incremental" ["contractors"]) "contractors" contractors_config
        (Some "2025-01-10T10:00:00Z") (world_with_table "2025-01-10T10:00:00Z" [])
      = Some (Ok tt, w')
      /\ requests w'
         = [("3pee-9qhc",
             page_params (Some ":updated_at > '2025-01-10T08:00:00+00:00'") 0)]
      /\ Some ":updated_at > '2025-01-10T08:00:00+00:00'"
         <> Some "updated_at > '2025-01-10T08:00:00Z'")
  /\ (fromisoformat_iso (str_replace "Z"%char "+00:00" "0001-01-01T01:00:00")
      = Ok (mkDatetime 1 1 1 1 0 0 0 None)
      /\ exists w',
           process_dataset one_row_source stable_argsort fromisoformat_iso 3
             (job_for "incremental" ["contractors"]) "contractors" contractors_config
             (Some "0001-01-01T01:00:00") (world_with_table "0001-01-01T01:00:00" [])
           = Some (Ok tt, w')
           /\ requests w' = [("3pee-9qhc", page_params None 0)]).
Proof.
  split.
  - eexists. split; [vm_compute; reflexivity|]. split; [reflexivity|discriminate].
  - split; [vm_compute; reflexivity|].
    eexists. split; [vm_compute; reflexivity|]. reflexivity.
Qed.

(** ** The raw archive of a run (C10) *)

Ltac key_neq :=
  unfold raw_object, meta_object; rewrite ?string_app_assoc;
  repeat apply string_app_neq;
  let H := fresh in intros H; vm_compute in H; discriminate.

Lemma raw_delta_neq_meta (self : IngestJob) (key : string) :
  raw_object self key false <> meta_object self key.
Proof. key_neq. Qed.

Lemma raw_delta_neq_meta_tmp (self : IngestJob) (key : string) :
  raw_object self key false <> meta_object self key +:+ ".tmp".
Proof. key_neq. Qed.

Lemma raw_full_neq_delta (self : IngestJob) (key : string) :
  raw_object self key true <> raw_object self key false.
Proof. key_neq. Qed.

Lemma raw_full_neq_delta_tmp (self : IngestJob) (key : string) :
  raw_object self key true <> raw_object self key false +:+ ".tmp".
Proof. key_neq. Qed.

Lemma raw_full_neq_meta (self : IngestJob) (key : string) :
  raw_object self key true <> meta_object self key.
Proof. key_neq. Qed.

Lemma raw_full_neq_meta_tmp (self : IngestJob) (key : string) :
  raw_object self key true <> meta_object self key +:+ ".tmp".
Proof. key_neq. Qed.

Lemma stored_lookup_eq (p : string) (d : content) (m : gmap string file) :
  stored p d m !! p = Some (Complete d).
Proof. unfold stored. apply lookup_insert_eq. Qed.

Lemma stored_lookup_ne (p k : string) (d : content) (m : gmap string file) :
  k <> p -> k <> p +:+ ".tmp" -> stored p d m !! k = m !! k.
Proof.
  intros H1 H2. unfold stored.
  rewrite lookup_insert_ne by done. rewrite lookup_delete_ne by done.
  by rewrite lookup_insert_ne.
Qed.

(** [write_bytes] on a store that does not fail. *)
Lemma write_bytes_ok (rel p : string) (data : content) (w : World) :
  _abs rel = Ok p -> write_faults w = [] ->
  write_bytes rel data w = Some (Ok tt, set_r2 (stored p data) w).
Proof.
  intros Hp Hf. unfold write_bytes, bind, storage_write, storage_rename, stored.
  rewrite Hp. cbn [lift ret]. rewrite Hf. cbn [r2 set_r2].
  by rewrite lookup_insert_eq.
Qed.

Section Archive.

Variable soda_get_json : string -> params -> result (list row).
Variable argsort : list (value * row) -> list (value * row).
Variable fromisoformat : string -> result datetime.

Lemma fetch_loop_unchanged {X} (f : World -> X) (fuel : nat) (key sid : string)
    (wh : option string) (offset : nat) (acc : list row) :
  (forall l w, f (add_log l w) = f w) ->
  (forall q w, f (add_request q w) = f w) ->
  preserves (unchanged f) (fetch_loop soda_get_json fuel key sid wh offset acc).
Proof.
  intros Hlog Hreq. revert offset acc.
  induction fuel as [|fuel IH]; intros offset acc.
  - intros w r w' H. discriminate.
  - cbn [fetch_loop].
    apply preserves_bind; [apply _ | | intros _].
    { intros w r w' H. unfold log in H. simplify_eq. apply Hlog. }
    apply preserves_bind; [apply _ | | intros rows].
    { intros w r w' H. unfold get_json in H. simplify_eq. apply Hreq. }
    frame.
Qed.

Lemma upsert_curated_outside (self : IngestJob) (key : string)
    (config : DatasetConfig) (b : bool) (df : DataFrame) :
  preserves (r2_same_on (fun k => ~ under_curated k))
            (upsert_curated argsort self key config b df).
Proof.
  unfold upsert_curated. rewrite _abs_curated_file. unfold to_parquet.
  pose proof (storage_write_r2 (fun k => ~ under_curated k) (curated_object key)) as Hw.
  frame. apply Hw. intros Hn. apply Hn, curated_object_under_curated.
Qed.

(** C10.  A run declared [incremental] for a dataset without stored
    watermark is not a bootstrap; it sends at least one request and none
    of its requests carries a filter; and once the fetch has returned its
    rows (the store not failing), the rows are archived under the
    [delta] tag, the metadata beside them records [is_bootstrap = false],
    and nothing is written under the [full] tag. *)
Theorem incremental_without_watermark_fetches_all_as_delta (fuel : nat)
    (self : IngestJob) (key : string) (config : DatasetConfig)
    (w w' : World) (r : result unit) :
  mode self = "incremental" ->
  process_dataset soda_get_json argsort fromisoformat fuel self key config None w
  = Some (r, w') ->
  select_bootstrap self None = false
  /\ (exists q new,
        requests w' = requests w ++ q :: new
        /\ Forall (fun q => q.1 = soda_id config /\ p_where q.2 = None) (q :: new))
  /\ (forall raw_rows w1,
        fetch_socrata_pages soda_get_json fuel key (soda_id config) None
          (add_log (LogProcessing key (mode self) None) w)
        = Some (Ok raw_rows, w1) ->
        write_faults w = [] ->
        r2 w' !! raw_object self key false = Some (Complete (RawJson raw_rows))
        /\ r2 w' !! meta_object self key
           = Some (Complete (MetaJson (length raw_rows) (isoformat (now w)) false))
        /\ r2 w' !! raw_object self key true = r2 w !! raw_object self key true).
Proof.
  intros Hmode Hrun.
  assert (select_bootstrap self None = false) as Hb.
  { unfold select_bootstrap. rewrite Hmode. reflexivity. }
  split; [exact Hb|]. split.
  { destruct (process_dataset_sends soda_get_json argsort fromisoformat
                fuel self key config None w r w' Hrun) as (q & new & Hreq & Hok).
    exists q, new. split; [exact Hreq|]. rewrite Hb in Hok. exact Hok. }
  intros raw_rows w1 Hfetch Hfaults.
  unfold process_dataset, fetch_store_normalize in Hrun. rewrite Hb in Hrun.
  assert (r2 w1 = r2 w /\ write_faults w1 = [] /\ now w1 = now w)
    as (Hr2 & Hf1 & Hnow).
  { rewrite <- Hfaults. repeat split.
    - exact (fetch_loop_unchanged r2 _ _ _ _ _ _ (fun _ _ => eq_refl)
               (fun _ _ => eq_refl) _ _ _ Hfetch).
    - exact (fetch_loop_unchanged write_faults _ _ _ _ _ _ (fun _ _ => eq_refl)
               (fun _ _ => eq_refl) _ _ _ Hfetch).
    - exact (fetch_loop_unchanged now _ _ _ _ _ _ (fun _ _ => eq_refl)
               (fun _ _ => eq_refl) _ _ _ Hfetch). }
  cbv beta iota delta [bind log ret fetch_since_of utcnow local_write
                       write_text write_json] in Hrun.
  rewrite Hfetch in Hrun. cbv beta iota in Hrun.
  rewrite (write_bytes_ok _ (raw_object self key false)) in Hrun;
    [|apply _abs_raw_key|exact Hf1].
  cbv beta iota in Hrun.
  rewrite (write_bytes_ok _ (meta_object self key)) in Hrun;
    [|apply _abs_meta_key|exact Hf1].
  cbv beta iota in Hrun.
  change (now (set_r2 _ (set_local _ (add_log _ w1)))) with (now w1) in Hrun.
  rewrite Hnow in Hrun.
  match type of Hrun with
  | context [Some (Raise _, ?x)] => set (w4 := x) in Hrun
  end.
  assert (r2 w4
          = stored (meta_object self key)
              (MetaJson (length raw_rows) (isoformat (now w)) false)
              (stored (raw_object self key false) (RawJson raw_rows) (r2 w))) as Hw4.
  { subst w4. cbn [r2 set_r2 set_local add_log]. by rewrite Hr2. }
  assert (forall k, ~ under_curated k -> r2 w' !! k = r2 w4 !! k) as Htail.
  { destruct (extractor config _ _) as [out|e]; cbv beta iota in Hrun.
    - destruct (df_empty _).
      + simplify_eq. done.
      + intros k Hk. exact (upsert_curated_outside _ _ _ _ _ _ _ _ Hrun k Hk).
    - simplify_eq. done. }
  assert (forall b, ~ under_curated (raw_object self key b)) as Hraw.
  { intros b. rewrite <- (string_app_nil_r (raw_object self key b)).
    apply raw_object_not_curated. }
  assert (~ under_curated (meta_object self key)) as Hmeta.
  { rewrite <- (string_app_nil_r (meta_object self key)).
    apply meta_object_not_curated. }
  rewrite !Htail, Hw4 by done.
  split; [|split].
  - rewrite stored_lookup_ne
      by (apply raw_delta_neq_meta || apply raw_delta_neq_meta_tmp).
    apply stored_lookup_eq.
  - apply stored_lookup_eq.
  - rewrite stored_lookup_ne
      by (apply raw_full_neq_meta || apply raw_full_neq_meta_tmp).
    apply stored_lookup_ne;
      [apply raw_full_neq_delta | apply raw_full_neq_delta_tmp].
Qed.

End Archive.

Lemma example_incremental_first_run :
  exists w',
    process_dataset one_row_source stable_argsort fromisoformat_iso 3
      (job_for "incremental" ["contractors"]) "contractors" contractors_config
      None fresh_world
    = Some (Ok tt, w').
Proof. eexists. vm_compute. reflexivity. Qed.

Lemma incremental_without_watermark_fetches_all_as_delta_witness :
  exists w',
    process_dataset one_row_source stable_argsort fromisoformat_iso 3
      (job_for "incremental" ["contractors"]) "contractors" contractors_config
      None fresh_world
    = Some (Ok tt, w')
    /\ r2 w' !! "raw/contractors/run1/delta.json"
       = Some (Complete (RawJson [contractor_new]))
    /\ r2 w' !! "raw/contractors/run1/meta.json"
       = Some (Complete (MetaJson 1 "2025-01-10T12:00:00" false))
    /\ r2 w' !! "raw/contractors/run1/full.json" = None.
Proof.
  destruct example_incremental_first_run as [w' Hrun].
  exists w'. split; [exact Hrun|].
  destruct (incremental_without_watermark_fetches_all_as_delta
              one_row_source stable_argsort fromisoformat_iso 3
              (job_for "incremental" ["contractors"]) "contractors"
              contractors_config fresh_world w' (Ok tt) eq_refl Hrun)
    as (_ & _ & Harchive).
  edestruct Harchive as (H1 & H2 & H3); [vm_compute; reflexivity|reflexivity|].
  split; [exact H1|]. split; [exact H2|exact H3].
Defined.

Lemma example_empty_delta :
  exists w1,
    fetch_store_normalize empty_source fromisoformat_iso 3
      (job_for "incremental" ["contractors"]) "contractors" contractors_config
      (Some "2025-01-10T10:00:00Z") (world_with_table "2025-01-10T10:00:00Z" [])
    = Some (Ok (false, pd_DataFrame []), w1).
Proof. eexists. vm_compute. reflexivity. Qed.

Lemma empty_delta_leaves_curated_untouched_witness :
  exists w',
    process_dataset empty_source stable_argsort fromisoformat_iso 3
      (job_for "incremental" ["contractors"]) "contractors" contractors_config
      (Some "2025-01-10T10:00:00Z") (world_with_table "2025-01-10T10:00:00Z" [])
    = Some (Ok tt, w')
    /\ r2 w' !! "curated/contractors/parquet/data.parquet"
       = Some (Complete (Parquet (pd_DataFrame [contractor_old]))).
Proof.
  destruct example_empty_delta as [w1 Hsteps].
  destruct (empty_delta_leaves_curated_untouched
              empty_source stable_argsort fromisoformat_iso 3
              (job_for "incremental" ["contractors"]) "contractors"
              contractors_config (Some "2025-01-10T10:00:00Z")
              (world_with_table "2025-01-10T10:00:00Z" []) w1 false
              (pd_DataFrame []) Hsteps eq_refl) as [Hrun Hsame].
  exists (add_log LogNoData w1). split; [exact Hrun|].
  rewrite Hsame by reflexivity. reflexivity.
Defined.

(** ** Atomicity of the curated write (C1) *)

(** The storage helper's own write is atomic: whatever the store does
    during [write_bytes], the target holds afterwards either what it held
    before or the complete new data; a failure is confined to the
    temporary file. *)
Lemma write_bytes_atomic (rel p : string) (data : content) (w w' : World)
    (r : result unit) :
  _abs rel = Ok p ->
  write_bytes rel data w = Some (r, w') ->
  (r = Ok tt /\ r2 w' !! p = Some (Complete data))
  \/ (r = Raise OSError /\ r2 w' !! p = r2 w !! p).
Proof.
  intros Hp H. unfold write_bytes in H. rewrite Hp in H.
  assert (p <> p +:+ ".tmp") as Hne.
  { rewrite <- (string_app_nil_r p) at 1. by apply string_app_neq. }
  unfold bind, lift, ret, storage_write, storage_rename in H.
  destruct (write_faults w) as [|[|] fs]; cbn [r2 set_r2 set_faults] in H;
    rewrite ?lookup_insert_eq in H; simplify_eq; cbn [r2 set_r2 set_faults].
  - left. split; [done|]. apply lookup_insert_eq.
  - right. split; [done|]. by apply lookup_insert_ne.
  - left. split; [done|]. apply lookup_insert_eq.
Qed.

(** C1 fails on the code: the merged table is written with [to_parquet]
    straight onto [data.parquet], not through [write_bytes].  With a
    committed table in place and a store that fails during the third
    write of the run (the curated one), the run raises and the curated
    object is left torn: the committed table is gone. *)
Theorem curated_write_is_not_atomic :
  r2 (world_with_table "2025-01-10T10:00:00Z" [false; false; true])
     !! "curated/contractors/parquet/data.parquet"
  = Some (Complete (Parquet (pd_DataFrame [contractor_old])))
  /\ exists w' df,
       process_dataset one_row_source stable_argsort fromisoformat_iso 3
         (job_for "incremental" ["contractors"]) "contractors" contractors_config
         (Some "2025-01-10T10:00:00Z")
         (world_with_table "2025-01-10T10:00:00Z" [false; false; true])
       = Some (Raise OSError, w')
       /\ r2 w' !! "curated/contractors/parquet/data.parquet"
          = Some (Torn (Parquet df))
       /\ df_records df = [contractor_new].
Proof.
  split; [reflexivity|].
  eexists. eexists. split; [vm_compute; reflexivity|].
  split; [vm_compute; reflexivity|]. vm_compute. reflexivity.
Qed.

(** ** Malformed watermark (C7) *)

(** Whenever the stored watermark does not parse, the run goes on and
    every request it sends is unfiltered. *)
Lemma malformed_watermark_fetch_is_unfiltered
    (soda_get_json : string -> params -> result (list row))
    (argsort : list (value * row) -> list (value * row))
    (fromisoformat : string -> result datetime)
    (fuel : nat) (self : IngestJob) (key : string) (config : DatasetConfig)
    (wm : string) (e : exn) :
  fromisoformat (str_replace "Z"%char "+00:00" wm) = Raise e ->
  sends (fun q => q.1 = soda_id config /\ p_where q.2 = None)
        (process_dataset soda_get_json argsort fromisoformat fuel self key config
                         (Some wm)).
Proof.
  intros Hparse w r w' Hrun.
  destruct (process_dataset_sends soda_get_json argsort fromisoformat
              fuel self key config (Some wm) w r w' Hrun) as (q & new & Hreq & Hok).
  exists q, new. split; [exact Hreq|].
  assert (where_clause (since_of fromisoformat (select_bootstrap self (Some wm)) (Some wm))
          = None) as Hw.
  { unfold since_of, lagged. rewrite Hparse.
    by destruct (negb _ && truthy _). }
  by rewrite Hw in Hok.
Qed.

(** C7 fails on the code: an incremental run whose stored watermark is
    not a timestamp logs a warning, sends its request without any filter,
    archives what it got as a delta and returns normally. *)
Theorem malformed_watermark_fetches_everything :
  fromisoformat_iso (str_replace "Z"%char "+00:00" "not-a-timestamp")
  = Raise ValueError
  /\ exists w',
       process_dataset one_row_source stable_argsort fromisoformat_iso 3
         (job_for "incremental" ["contractors"]) "contractors" contractors_config
         (Some "not-a-timestamp") (world_with_table "not-a-timestamp" [])
       = Some (Ok tt, w')
       /\ requests w' = [("3pee-9qhc", page_params None 0)]
       /\ logs w'
          = [LogProcessing "contractors" "incremental" (Some "not-a-timestamp");
             LogWatermarkParseFailed "not-a-timestamp" ValueError;
             LogFetching "contractors" 0;
             LogFetched 1 "contractors";
             LogUpserted 1 "curated/contractors/parquet/data.parquet"]
       /\ r2 w' !! "raw/contractors/run1/delta.json"
          = Some (Complete (RawJson [contractor_new])).
Proof.
  split; [vm_compute; reflexivity|].
  eexists. split; [vm_compute; reflexivity|].
  split; [reflexivity|]. split; [reflexivity|]. vm_compute. reflexivity.
Qed.

(** ** The run loop (C2) *)

Section Run.

Variable soda_get_json : string -> params -> result (list row).
Variable argsort : list (value * row) -> list (value * row).
Variable fromisoformat : string -> result datetime.
Variable registry : gmap string DatasetConfig.

Lemma run_datasets_app (fuel : nat) (self : IngestJob) (pre post : list string)
    (w : World) :
  run_datasets soda_get_json argsort fromisoformat registry fuel self (pre ++ post) w
  = bind (run_datasets soda_get_json argsort fromisoformat registry fuel self pre)
         (fun _ => run_datasets soda_get_json argsort fromisoformat registry fuel
                     self post) w.
Proof.
  revert w. induction pre as [|ds pre IH]; intros w; [reflexivity|].
  cbn [app run_datasets]. unfold bind.
  destruct (run_dataset _ _ _ _ _ _ _ w) as [[[[]|e] w1]|]; [|reflexivity..].
  rewrite IH. reflexivity.
Qed.

(** C2, as the code has it.  [run] has no handler around a dataset: when
    the datasets listed before [ds] have been processed and processing
    [ds] raises, [run] raises the same exception at once.  The world is
    left as it was when [ds] failed, whatever datasets were listed after
    it: none of them is processed, the insights step does not run, and
    no summary of successes and failures is made. *)
Theorem run_stops_at_first_failure (fuel : nat) (self : IngestJob)
    (pre post : list string) (ds : string) (w w1 w' : World) (e : exn) :
  target_datasets self = pre ++ ds :: post ->
  run_datasets soda_get_json argsort fromisoformat registry fuel self pre w
  = Some (Ok tt, w1) ->
  run_dataset soda_get_json argsort fromisoformat registry fuel self ds w1
  = Some (Raise e, w') ->
  run soda_get_json argsort fromisoformat registry fuel self w
  = Some (Raise e, w').
Proof.
  intros Htargets Hpre Hds. unfold run. rewrite Htargets.
  unfold bind at 1. rewrite run_datasets_app. unfold bind at 1. rewrite Hpre.
  cbn [run_datasets]. unfold bind at 1. rewrite Hds. reflexivity.
Qed.

End Run.

(** C2 as stated fails: both datasets are configured and requested, the
    source is down for the first one only, and the second one is never
    taken up; on its own the second dataset is processed without error.
    With the registry of the source file, a run over the contractors
    dataset listed twice makes one attempt only. *)
Lemma failure_of_one_dataset_aborts_the_run :
  is_Some (two_datasets !! "contractors") /\ is_Some (two_datasets !! "permits")
  /\ (exists w',
        run contractors_down stable_argsort fromisoformat_iso two_datasets 3
            (job_for "auto" ["contractors"; "permits"]) fresh_world
        = Some (Raise HTTPStatusError, w')
        /\ processed "contractors" w' = true
        /\ processed "permits" w' = false
        /\ r2 w' = ∅)
  /\ (exists w',
        run contractors_down stable_argsort fromisoformat_iso two_datasets 3
            (job_for "auto" ["permits"]) fresh_world
        = Some (Ok tt, w')
        /\ processed "permits" w' = true)
  /\ (exists w',
        run contractors_down stable_argsort fromisoformat_iso
            (DATASET_CONFIG rows_extractor) 3
            (job_for "auto" ["contractors"; "contractors"]) fresh_world
        = Some (Raise HTTPStatusError, w')
        /\ length (requests w') = 1).
Proof.
  split; [by vm_compute; eauto|]. split; [by vm_compute; eauto|]. split.
  - eexists. split; [vm_compute; reflexivity|].
    split; [reflexivity|]. split; reflexivity.
  - split.
    + eexists. split; [vm_compute; reflexivity|]. reflexivity.
    + eexists. split; [vm_compute; reflexivity|]. reflexivity.
Qed.

Lemma run_stops_at_first_failure_witness :
  exists w',
    run contractors_down stable_argsort fromisoformat_iso two_datasets 3
        (job_for "auto" ["permits"; "contractors"; "permits"]) fresh_world
    = Some (Raise HTTPStatusError, w')
    /\ length (requests w') = 2.
Proof.
  assert (exists w1,
            run_datasets contractors_down stable_argsort fromisoformat_iso
              two_datasets 3 (job_for "auto" ["permits"; "contractors"; "permits"])
              ["permits"] fresh_world = Some (Ok tt, w1)
            /\ exists w',
                 run_dataset contractors_down stable_argsort fromisoformat_iso
                   two_datasets 3 (job_for "auto" ["permits"; "contractors"; "permits"])
                   "contractors" w1 = Some (Raise HTTPStatusError, w')
                 /\ length (requests w') = 2) as (w1 & Hpre & w' & Hds & Hlen).
  { eexists. split; [vm_compute; reflexivity|].
    eexists. split; [vm_compute; reflexivity|]. reflexivity. }
  exists w'. split; [|exact Hlen].
  exact (run_stops_at_first_failure contractors_down stable_argsort fromisoformat_iso
           two_datasets 3 (job_for "auto" ["permits"; "contractors"; "permits"])
           ["permits"] ["permits"] "contractors" fresh_world w1 w' HTTPStatusError
           eq_refl Hpre Hds).
Defined.

(** * Further properties of the code *)

(** ** The merge, for every table *)

Lemma keyed_na_rows_perm (c : string) (rs : list row) :
  (keyed c rs).*2 ++ na_rows c rs ≡ₚ rs.
Proof.
  induction rs as [|x rs IH]; [done|].
  unfold keyed, na_rows in *. cbn [omap list_omap List.filter].
  destruct (cell c x) as [v|] eqn:E; cbn.
  - by rewrite IH.
  - rewrite <- Permutation_middle. by rewrite IH.
Qed.

Lemma na_rows_elem_of (c : string) (rs : list row) (r : row) :
  r ∈ na_rows c rs <-> r ∈ rs /\ cell c r = None.
Proof.
  unfold na_rows. rewrite !list_elem_of_In, filter_In.
  by rewrite bool_decide_eq_true.
Qed.

Lemma columns_with_records (df : DataFrame) (rs : list row) :
  (forall r, r ∈ rs -> r ∈ df_records df) ->
  columns (with_records df rs) = columns df.
Proof.
  intros Hsub. unfold columns at 1. cbn [df_schema df_records with_records].
  apply set_eq. intros c. rewrite elem_of_union. split; [|by left].
  intros [H|H]; [done|].
  apply elem_of_union_list in H as (X & HX & Hc).
  apply list_elem_of_fmap in HX as (r & -> & Hr).
  apply (elem_of_columns_row df c r); auto.
Qed.

Section MergeInvariants.

Variable argsort : list (value * row) -> list (value * row).
Hypothesis argsort_perm : forall ks, argsort ks ≡ₚ ks.

Lemma sort_values_perm (c : string) (df sorted : DataFrame) :
  sort_values argsort c df = Ok sorted ->
  df_records sorted ≡ₚ df_records df /\ columns sorted = columns df.
Proof.
  unfold sort_values. destruct (comparable _); [|discriminate].
  intros [= <-]. cbn [df_records with_records].
  assert ((argsort (keyed c (df_records df))).*2 ++ na_rows c (df_records df)
          ≡ₚ df_records df) as Hp.
  { rewrite argsort_perm. apply keyed_na_rows_perm. }
  split; [exact Hp|].
  apply columns_with_records. intros r Hr. by rewrite <- Hp.
Qed.

(** What [dedupe] returns: the table itself, or the last occurrences of
    a rearrangement of its rows. *)
Lemma dedupe_shape (pk : string) (df out : DataFrame) :
  dedupe argsort pk df = Ok out ->
  columns out = columns df
  /\ (((pk ∉ columns df) /\ out = df)
      \/ (pk ∈ columns df
          /\ exists l, l ≡ₚ df_records df
                       /\ df_records out = drop_duplicates_last pk l)).
Proof.
  unfold dedupe. intros Hd.
  case_bool_decide as Hpk; [|injection Hd as <-; split; [done|by left]].
  case_bool_decide as Hts.
  - destruct (sort_values argsort ":updated_at" df) as [sorted|e] eqn:Hs; [|discriminate].
    injection Hd as <-. destruct (sort_values_perm _ _ _ Hs) as [Hp Hc].
    split.
    + unfold drop_duplicates. rewrite columns_with_records; [done|].
      intros r. apply drop_duplicates_last_elem_of.
    + right. split; [done|]. by exists (df_records sorted).
  - injection Hd as <-. split.
    + unfold drop_duplicates. apply columns_with_records.
      intros r. apply drop_duplicates_last_elem_of.
    + right. split; [done|]. by exists (df_records df).
Qed.

Lemma upsert_invents_and_loses_nothing (pk : string)
    (existing delta out : DataFrame) :
  upsert argsort pk existing delta = Ok out ->
  (forall r, r ∈ df_records out -> r ∈ df_records (merge_frames existing delta))
  /\ columns out = columns (merge_frames existing delta)
  /\ (forall r, r ∈ df_records (merge_frames existing delta) ->
        exists r', r' ∈ df_records out /\ cell pk r' = cell pk r).
Proof.
  unfold upsert. intros H.
  destruct (dedupe_shape pk _ out H) as [Hc [[_ ->]|(_ & l & Hl & Hout)]].
  - split; [done|]. split; [done|]. eauto.
  - rewrite Hout. split; [|split; [done|]].
    + intros r Hr%drop_duplicates_last_elem_of. by rewrite <- Hl.
    + intros r Hr. apply drop_duplicates_last_survivor. by rewrite Hl.
Qed.

(** X1.  Whatever the tables, a merge that returns invents no row and no
    column and loses no key: the rows of the result are rows of the
    concatenated table, its columns are those of the concatenated table,
    and every row of the concatenated table has a row with the same
    primary-key cell in the result. *)
Theorem upsert_keeps_rows_columns_and_keys (pk : string)
    (existing delta out : DataFrame) :
  upsert argsort pk existing delta = Ok out ->
  (forall r, r ∈ df_records out -> r ∈ df_records (merge_frames existing delta))
  /\ columns out = columns (merge_frames existing delta)
  /\ (forall r, r ∈ df_records (merge_frames existing delta) ->
        exists r', r' ∈ df_records out /\ cell pk r' = cell pk r).
Proof. exact (upsert_invents_and_loses_nothing pk existing delta out). Qed.

Lemma columns_pd_concat_l (a b : DataFrame) (c : string) :
  c ∈ columns a -> c ∈ columns (pd_concat [a; b]).
Proof.
  intros Hin. unfold columns at 1. cbn [df_schema pd_concat].
  apply elem_of_union_l. cbn. apply elem_of_union. by left.
Qed.

(** X2.  Merging again rows the table already holds changes nothing but
    possibly the order: if the existing table has the primary-key column
    and no two rows with the same key cell, and every delta row is a row
    of the existing table, the rows of the result are a rearrangement of
    the existing rows. *)
Theorem upsert_of_known_rows_changes_nothing (pk : string)
    (existing delta out : DataFrame) :
  pk ∈ columns existing ->
  NoDup (cell pk <$> df_records existing) ->
  (forall r, r ∈ df_records delta -> r ∈ df_records existing) ->
  upsert argsort pk existing delta = Ok out ->
  df_records out ≡ₚ df_records existing.
Proof.
  intros Hpk Hnd Hsub Hout.
  destruct (df_records existing) as [|x xs] eqn:E.
  - assert (df_records delta = []) as Hd.
    { destruct (df_records delta) as [|y ys]; [done|].
      exfalso. eapply elem_of_nil, Hsub. left. }
    destruct (upsert_invents_and_loses_nothing pk existing delta out Hout) as (Hin & _).
    assert (df_records (merge_frames existing delta) = []) as Hm.
    { unfold merge_frames, df_empty. rewrite E. by cbn. }
    rewrite Hm in Hin. destruct (df_records out) as [|y ys]; [done|].
    exfalso. eapply elem_of_nil, Hin. left.
  - assert (df_empty existing = false) as He.
    { unfold df_empty. rewrite E. cbn [orb].
      rewrite bool_decide_eq_false_2 by done. cbn.
      apply bool_decide_eq_false_2. intros H0. rewrite H0 in Hpk. set_solver. }
    unfold upsert in Hout.
    assert (merge_frames existing delta = pd_concat [existing; delta]) as Hm.
    { unfold merge_frames. by rewrite He. }
    rewrite Hm in Hout.
    destruct (dedupe_shape pk _ out Hout) as [_ [[Hno _]|(_ & l & Hl & Ho)]].
    { exfalso. by apply Hno, columns_pd_concat_l. }
    rewrite pd_concat_pair_records, E in Hl. rewrite Ho. rewrite <- E in *.
    apply NoDup_Permutation.
    + eapply NoDup_fmap_1, drop_duplicates_last_NoDup.
    + by eapply NoDup_fmap_1.
    + intros r. split.
      * intros Hr%drop_duplicates_last_elem_of. rewrite Hl in Hr.
        apply elem_of_app in Hr as [Hr|Hr]; auto.
      * intros Hr.
        destruct (drop_duplicates_last_survivor pk l r) as (r' & Hr' & Hk).
        { rewrite Hl. apply elem_of_app. by left. }
        assert (r' ∈ df_records existing) as Hr'e.
        { apply drop_duplicates_last_elem_of in Hr'. rewrite Hl in Hr'.
          apply elem_of_app in Hr' as [?|?]; auto. }
        by rewrite <- (NoDup_fmap_elem_inj (cell pk) _ r' r Hnd Hr'e Hr Hk).
Qed.

End MergeInvariants.

Lemma upsert_keeps_rows_columns_and_keys_witness :
  exists out,
    upsert stable_argsort "contractor_id" (pd_DataFrame [contractor_old; row_key8])
           (pd_DataFrame [contractor_new]) = Ok out
    /\ (forall r, r ∈ df_records out -> r ∈ [contractor_old; row_key8; contractor_new])
    /\ exists r', r' ∈ df_records out /\ cell "contractor_id" r' = Some (VInt 8).
Proof.
  eexists. split; [vm_compute; reflexivity|].
  destruct (upsert_keeps_rows_columns_and_keys stable_argsort stable_argsort_perm
              "contractor_id" (pd_DataFrame [contractor_old; row_key8])
              (pd_DataFrame [contractor_new]) _ ltac:(vm_compute; reflexivity))
    as (Hin & _ & Hkeys).
  split; [exact Hin|].
  exact (Hkeys row_key8 ltac:(right; left)).
Defined.

Lemma upsert_of_known_rows_changes_nothing_witness :
  exists out,
    upsert stable_argsort "contractor_id" (pd_DataFrame [contractor_new; row_key8])
           (pd_DataFrame [row_key8; contractor_new]) = Ok out
    /\ df_records out ≡ₚ [contractor_new; row_key8].
Proof.
  eexists. split; [vm_compute; reflexivity|].
  refine (upsert_of_known_rows_changes_nothing stable_argsort stable_argsort_perm
            "contractor_id" (pd_DataFrame [contractor_new; row_key8])
            (pd_DataFrame [row_key8; contractor_new]) _ _ _ _ _).
  - refine (bool_decide_unpack _ _). vm_compute. exact I.
  - refine (bool_decide_unpack _ _). vm_compute. exact I.
  - cbn [df_records pd_DataFrame]. intros r Hr.
    apply elem_of_cons in Hr as [->|Hr]; [right; left|].
    apply elem_of_cons in Hr as [->|Hr]; [left|]. by apply elem_of_nil in Hr.
  - vm_compute. reflexivity.
Defined.


(** X4.  A row without timestamp beats every dated row of its key:
    [sort_values] puts the rows with a missing [:updated_at] after all
    the others and the last occurrence is kept, so when such a row is in
    the concatenated table, the row kept for its key has no timestamp
    either. *)
Theorem undated_row_wins
    (argsort : list (value * row) -> list (value * row))
    (pk : string) (existing delta out : DataFrame) (r_undated r : row) :
  upsert argsort pk existing delta = Ok out ->
  pk ∈ columns (merge_frames existing delta) ->
  ":updated_at" ∈ columns (merge_frames existing delta) ->
  r_undated ∈ df_records (merge_frames existing delta) ->
  cell ":updated_at" r_undated = None ->
  r ∈ df_records out ->
  cell pk r = cell pk r_undated ->
  cell ":updated_at" r = None.
Proof.
  unfold upsert, dedupe, sort_values.
  set (final := merge_frames existing delta).
  intros Hout Hpk Hts Hin Hna Hr Hkey.
  rewrite (bool_decide_eq_true_2 _ Hpk), (bool_decide_eq_true_2 _ Hts) in Hout.
  destruct (comparable _); [|discriminate]. injection Hout as <-.
  cbn [df_records drop_duplicates with_records] in Hr.
  apply drop_duplicates_last_is_last in Hr as (l1 & l2 & Heq & Hlast).
  assert (r_undated ∈ na_rows ":updated_at" (df_records final)) as Hu.
  { by apply na_rows_elem_of. }
  apply app_eq_inv in Heq as [(m & _ & Hm)|(m & _ & Hm)].
  - destruct m as [|x m]; cbn in Hm.
    + assert (r ∈ na_rows ":updated_at" (df_records final)) as Hr.
      { rewrite <- Hm. left. }
      by apply na_rows_elem_of in Hr as [_ ?].
    + injection Hm as -> ->. exfalso. apply Hlast. rewrite Hkey.
      apply list_elem_of_fmap. exists r_undated. split; [done|].
      apply elem_of_app. by right.
  - assert (r ∈ na_rows ":updated_at" (df_records final)) as Hr.
    { rewrite Hm. apply elem_of_app. right. left. }
    by apply na_rows_elem_of in Hr as [_ ?].
Qed.


Lemma undated_row_wins_witness :
  exists out,
    upsert stable_argsort "contractor_id" (pd_DataFrame [row_key7_undated])
           (pd_DataFrame [contractor_new]) = Ok out
    /\ forall r, r ∈ df_records out ->
                 cell "contractor_id" r = Some (VInt 7) ->
                 cell ":updated_at" r = None.
Proof.
  eexists. split; [vm_compute; reflexivity|].
  intros r Hr Hk.
  refine (undated_row_wins stable_argsort "contractor_id"
            (pd_DataFrame [row_key7_undated]) (pd_DataFrame [contractor_new])
            _ row_key7_undated r _ _ _ _ _ Hr Hk).
  - vm_compute. reflexivity.
  - refine (bool_decide_unpack _ _). vm_compute. exact I.
  - refine (bool_decide_unpack _ _). vm_compute. exact I.
  - vm_compute. left.
  - vm_compute. reflexivity.
Defined.

(** ** The storage helper *)

Lemma lstrip_slash_only_slashes (p : string) :
  lstrip_slash p = "" <-> only_slashes p = true.
Proof.
  induction p as [|a p IH]; cbn; [done|].
  destruct (Ascii.eqb a "/"); cbn; [exact IH|]. split; discriminate.
Qed.

Lemma posix_cons (a : ascii) (s : string) :
  posix (String a s) = String (if Ascii.eqb a "\" then "/"%char else a) (posix s).
Proof. unfold posix. cbn [str_replace]. by destruct (Ascii.eqb a "\"). Qed.

Lemma posix_no_backslash (s : string) : has_char "\" (posix s) = false.
Proof.
  induction s as [|a s IH]; [done|].
  rewrite posix_cons. cbn [has_char]. rewrite IH.
  destruct (Ascii.eqb a "\") eqn:E; [done|]. by rewrite E.
Qed.

Lemma posix_id (s : string) : has_char "\" s = false -> posix s = s.
Proof.
  induction s as [|a s IH]; [done|]. cbn [has_char].
  intros [Ha Hs]%orb_false_iff. by rewrite posix_cons, Ha, IH.
Qed.

Lemma _norm_rel_cases (p : string) :
  (only_slashes p = true -> _norm_rel p = Raise ValueError)
  /\ (only_slashes p = false ->
      exists k, _norm_rel p = Ok k /\ k <> "" /\ has_char "\" k = false)
  /\ (p <> "" -> has_char "\" p = false -> lstrip_slash p = p ->
      _norm_rel p = Ok p).
Proof.
  unfold _norm_rel. fold (posix (lstrip_slash p)). split; [|split].
  - intros H%lstrip_slash_only_slashes. by rewrite H.
  - intros H.
    assert (lstrip_slash p <> "") as Hne.
    { intros E%lstrip_slash_only_slashes. congruence. }
    destruct (lstrip_slash p) as [|a s] eqn:E; [done|].
    exists (posix (String a s)). split; [|split].
    + rewrite posix_cons. reflexivity.
    + by rewrite posix_cons.
    + apply posix_no_backslash.
  - intros Hne Hb ->. rewrite (posix_id p Hb).
    destruct p; [done|reflexivity].
Qed.

(** X5.  [_norm_rel] refuses exactly the paths made of slashes only (the
    empty path among them), with [ValueError]; on any other path it
    returns a key that is not empty and holds no backslash; and a path
    that has no backslash and no leading slash is returned as it is, its
    [..] segments included. *)
Theorem _norm_rel_keys (p : string) :
  (only_slashes p = true -> _norm_rel p = Raise ValueError)
  /\ (only_slashes p = false ->
      exists k, _norm_rel p = Ok k /\ k <> "" /\ has_char "\" k = false)
  /\ (p <> "" -> has_char "\" p = false -> lstrip_slash p = p ->
      _norm_rel p = Ok p).
Proof. exact (_norm_rel_cases p). Qed.

Lemma _norm_rel_keys_witness :
  _norm_rel "///" = Raise ValueError
  /\ (exists k, _norm_rel "/raw\contractors" = Ok k /\ k <> "" /\ has_char "\" k = false)
  /\ _norm_rel "raw/../curated/x" = Ok "raw/../curated/x".
Proof.
  split; [|split].
  - exact (proj1 (_norm_rel_keys "///") eq_refl).
  - exact (proj1 (proj2 (_norm_rel_keys "/raw\contractors")) eq_refl).
  - exact (proj2 (proj2 (_norm_rel_keys "raw/../curated/x"))
             ltac:(discriminate) eq_refl eq_refl).
Defined.

Lemma write_bytes_outcome (rel p : string) (data : content)
    (w w' : World) (r : result unit) :
  _abs rel = Ok p ->
  write_bytes rel data w = Some (r, w') ->
  (r = Ok tt /\ r2 w' !! p = Some (Complete data))
  \/ (r = Raise OSError /\ r2 w' !! p = r2 w !! p
      /\ r2 w' !! (p +:+ ".tmp") = Some (Torn data)).
Proof.
  intros Hp H. unfold write_bytes in H. rewrite Hp in H.
  assert (p <> p +:+ ".tmp") as Hne.
  { rewrite <- (string_app_nil_r p) at 1. by apply string_app_neq. }
  unfold bind, lift, ret, storage_write, storage_rename in H.
  destruct (write_faults w) as [|[|] fs]; cbn [r2 set_r2 set_faults] in H;
    rewrite ?lookup_insert_eq in H; simplify_eq; cbn [r2 set_r2 set_faults].
  - left. split; [done|]. apply lookup_insert_eq.
  - right. split; [done|]. split; [by apply lookup_insert_ne|apply lookup_insert_eq].
  - left. split; [done|]. apply lookup_insert_eq.
Qed.

(** X6.  [write_bytes] either commits or changes nothing at the target:
    whatever the store does during the call, the target holds afterwards
    the complete new data and the call returned, or it holds what it
    held before and the call raised [OSError]. *)
Theorem write_bytes_commits_or_keeps (rel p : string) (data : content)
    (w w' : World) (r : result unit) :
  _abs rel = Ok p ->
  write_bytes rel data w = Some (r, w') ->
  (r = Ok tt /\ r2 w' !! p = Some (Complete data))
  \/ (r = Raise OSError /\ r2 w' !! p = r2 w !! p
      /\ r2 w' !! (p +:+ ".tmp") = Some (Torn data)).
Proof. exact (write_bytes_outcome rel p data w w' r). Qed.

Lemma write_bytes_commits_or_keeps_witness :
  exists w',
    write_json "curated/contractors/_state.json" (StateJson (Some "later") "run1")
               (world_with_table "2025-01-10T10:00:00Z" [true])
    = Some (Raise OSError, w')
    /\ r2 w' !! "curated/contractors/_state.json"
       = Some (Complete (StateJson (Some "2025-01-10T10:00:00Z") "run0")).
Proof.
  eexists. split; [vm_compute; reflexivity|].
  destruct (write_bytes_commits_or_keeps "curated/contractors/_state.json"
              "curated/contractors/_state.json" (StateJson (Some "later") "run1")
              (world_with_table "2025-01-10T10:00:00Z" [true]) _ (Raise OSError)
              eq_refl ltac:(vm_compute; reflexivity)) as [[H _]|(_ & H & _)].
  - discriminate H.
  - rewrite H. reflexivity.
Defined.

(** X7.  What [write_json] stored is what [read_json] returns: on a store
    that does not fail, writing a JSON document under a path and reading
    the path back gives the document; the path then exists, no temporary
    object is left beside it, and every other object is untouched. *)
Theorem write_json_read_json (rel p : string) (obj : content) (w : World) :
  _abs rel = Ok p ->
  write_faults w = [] ->
  is_json obj = true ->
  exists w',
    write_json rel obj w = Some (Ok tt, w')
    /\ read_json rel w' = Some (Ok obj, w')
    /\ exists_ rel w' = Some (Ok true, w')
    /\ r2 w' !! (p +:+ ".tmp") = None
    /\ (forall k, k <> p -> k <> p +:+ ".tmp" -> r2 w' !! k = r2 w !! k).
Proof.
  intros Hp Hf Hj. exists (set_r2 (stored p obj) w).
  assert (p <> p +:+ ".tmp") as Hne.
  { rewrite <- (string_app_nil_r p) at 1. by apply string_app_neq. }
  split; [by apply write_bytes_ok|].
  split; [|split; [|split]].
  - unfold read_json, bind. rewrite Hp. cbn [lift ret r2 set_r2].
    rewrite stored_lookup_eq. by destruct obj.
  - unfold exists_, bind. rewrite Hp. cbn [lift ret r2 set_r2].
    unfold path_exists. rewrite stored_lookup_eq.
    rewrite bool_decide_eq_true_2 by eauto. reflexivity.
  - cbn [r2 set_r2]. unfold stored.
    rewrite lookup_insert_ne by done. apply lookup_delete_eq.
  - intros k H1 H2. cbn [r2 set_r2]. by apply stored_lookup_ne.
Qed.

Lemma write_json_read_json_witness :
  exists w',
    write_json "insights/latest/catalog.json" (CatalogJson ["contractors"] "t") fresh_world
    = Some (Ok tt, w')
    /\ read_json "insights/latest/catalog.json" w'
       = Some (Ok (CatalogJson ["contractors"] "t"), w').
Proof.
  destruct (write_json_read_json "insights/latest/catalog.json"
              "insights/latest/catalog.json" (CatalogJson ["contractors"] "t")
              fresh_world eq_refl eq_refl eq_refl) as (w' & Hw & Hr & _).
  exists w'. split; [exact Hw|exact Hr].
Defined.



Lemma elem_of_keys_under (pre k : string) (m : gmap string file) :
  k ∈ List.filter (String.prefix pre) (map_to_list m).*1
  <-> is_Some (m !! k) /\ String.prefix pre k = true.
Proof.
  rewrite list_elem_of_In, filter_In, <- list_elem_of_In, list_elem_of_fmap.
  split.
  - intros [([k' f] & -> & Hk%elem_of_map_to_list) Hp]. eauto.
  - intros [[f Hf] Hp]. split; [|done].
    exists (k, f). split; [done|]. by apply elem_of_map_to_list.
Qed.



(** ** The paginated fetch: failures and sources that never run short *)

Lemma pages_requested_unchanged {X} (f : World -> X) (key sid : string)
    (wh : option string) (n : nat) :
  (forall l w, f (add_log l w) = f w) ->
  (forall q w, f (add_request q w) = f w) ->
  forall offset w, f (pages_requested key sid wh offset n w) = f w.
Proof.
  intros Hl Hq. induction n as [|n IH]; intros offset w; [done|].
  cbn [pages_requested]. by rewrite IH, Hq, Hl.
Qed.

Section FetchFailures.

Variable soda_get_json : string -> params -> result (list row).
Variable argsort : list (value * row) -> list (value * row).
Variable fromisoformat : string -> result datetime.

Lemma fetch_loop_failed_page (key sid : string) (wh : option string)
    (full : list (list row)) (e : exn) :
  forall (offset fuel : nat) (acc : list row) (w : World),
    (forall i rows, full !! i = Some rows ->
       soda_get_json sid (page_params wh (offset + i * 2000)) = Ok rows
       /\ 2000 <= length rows) ->
    soda_get_json sid (page_params wh (offset + length full * 2000)) = Raise e ->
    length full < fuel ->
    fetch_loop soda_get_json fuel key sid wh offset acc w
    = Some (Raise e, pages_requested key sid wh offset (S (length full)) w).
Proof.
  induction full as [|p full IH]; intros offset fuel acc w Hfull Hlast Hfuel.
  - destruct fuel as [|fuel]; [lia|].
    cbn [length Nat.mul] in Hlast. rewrite Nat.add_0_r in Hlast.
    cbn [fetch_loop]. unfold bind, log, get_json.
    fold (page_params wh offset). rewrite Hlast. reflexivity.
  - destruct fuel as [|fuel]; [cbn [length] in Hfuel; lia|].
    destruct (Hfull 0 p eq_refl) as [Hp Hlen].
    cbn [Nat.mul] in Hp. rewrite Nat.add_0_r in Hp.
    cbn [fetch_loop]. unfold bind at 1 2, log, get_json.
    fold (page_params wh offset). rewrite Hp.
    destruct p as [|r p']; [cbn [length] in Hlen; lia|].
    assert ((length (r :: p') <? 2000)%nat = false) as -> by (by apply Nat.ltb_ge).
    rewrite (IH (offset + 2000) fuel (acc ++ r :: p')).
    + reflexivity.
    + intros i rows Hi. replace (offset + 2000 + i * 2000) with (offset + S i * 2000) by lia.
      by apply Hfull.
    + cbn [length] in Hlast.
      replace (offset + 2000 + length full * 2000)
        with (offset + S (length full) * 2000) by lia. exact Hlast.
    + cbn [length] in Hfuel. lia.
Qed.

Lemma fetch_since_of_returns (b : bool) (wm : option string) (w : World) :
  exists w1,
    fetch_since_of fromisoformat b wm w = Some (Ok (since_of fromisoformat b wm), w1)
    /\ r2 w1 = r2 w /\ local_tmp w1 = local_tmp w /\ requests w1 = requests w
    /\ write_faults w1 = write_faults w /\ now w1 = now w.
Proof.
  unfold fetch_since_of, since_of.
  destruct wm as [wm|]; [|by exists w].
  destruct (negb b && truthy (Some wm)); [|by exists w].
  destruct (lagged fromisoformat wm) as [s|e]; [by exists w|].
  by exists (add_log (LogWatermarkParseFailed wm e) w).
Qed.

(** X10.  A page that fails fails the dataset.  When the pages before
    it were full and the source raises on the next one,
    [process_dataset] raises that exception; the rows of the pages
    already fetched are dropped with it: nothing is written to the
    bucket or to the scratch directory, and no page after the failed one
    is asked for. *)
Theorem failed_page_fails_the_dataset (fuel : nat) (self : IngestJob) (key : string)
    (config : DatasetConfig) (wm : option string) (full : list (list row))
    (e : exn) (w : World) :
  let wh := where_clause (since_of fromisoformat (select_bootstrap self wm) wm) in
  (forall i rows, full !! i = Some rows ->
     soda_get_json (soda_id config) (page_params wh (i * 2000)) = Ok rows
     /\ 2000 <= length rows) ->
  soda_get_json (soda_id config) (page_params wh (length full * 2000)) = Raise e ->
  length full < fuel ->
  exists w',
    process_dataset soda_get_json argsort fromisoformat fuel self key config wm w
    = Some (Raise e, w')
    /\ r2 w' = r2 w
    /\ local_tmp w' = local_tmp w
    /\ requests w'
       = requests w
         ++ ((fun i => (soda_id config, page_params wh (i * 2000)))
               <$> seq 0 (S (length full))).
Proof.
  intros wh Hfull Hlast Hfuel.
  destruct (fetch_since_of_returns (select_bootstrap self wm) wm
              (add_log (LogProcessing key (mode self) wm) w))
    as (w1 & Hs & Hr2 & Hloc & Hreq & _).
  exists (pages_requested key (soda_id config) wh 0 (S (length full)) w1).
  split; [|split; [|split]].
  - unfold process_dataset, fetch_store_normalize.
    unfold bind at 1 2 3. unfold log at 1. rewrite Hs.
    unfold bind at 1. unfold fetch_socrata_pages. fold wh.
    by rewrite (fetch_loop_failed_page key (soda_id config) wh full e 0 fuel [] w1).
  - by rewrite (pages_requested_unchanged r2), Hr2.
  - by rewrite (pages_requested_unchanged local_tmp), Hloc.
  - by rewrite pages_requested_requests, Hreq.
Qed.

(** X11.  The fetch has no bound of its own on the number of pages: on
    a source that answers every request with at least 2000 rows the loop
    never returns, however many iterations it is given. *)
Theorem fetch_never_returns_on_full_pages (key sid : string) (since : option string)
    (fuel : nat) (w : World) :
  (forall q, exists rows, soda_get_json sid q = Ok rows /\ 2000 <= length rows) ->
  fetch_socrata_pages soda_get_json fuel key sid since w = None.
Proof.
  intros Hfull. unfold fetch_socrata_pages.
  generalize 0 at 1. generalize (@nil row). revert w.
  induction fuel as [|fuel IH]; intros w acc offset; [done|].
  cbn [fetch_loop]. unfold bind at 1 2, log, get_json.
  destruct (Hfull {| p_limit := 2000; p_order := ":updated_at";
                     p_where := where_clause since; p_offset := offset |})
    as (rows & -> & Hlen).
  destruct rows as [|r rows]; [cbn [length] in Hlen; lia|].
  assert ((length (r :: rows) <? 2000)%nat = false) as -> by (by apply Nat.ltb_ge).
  apply IH.
Qed.

End FetchFailures.

Lemma failed_page_fails_the_dataset_witness :
  exists w',
    process_dataset full_then_error stable_argsort fromisoformat_iso 5
      (job_for "bootstrap" ["contractors"]) "contractors" contractors_config None
      (world_with_table "2025-01-10T10:00:00Z" [])
    = Some (Raise HTTPStatusError, w')
    /\ r2 w' = bucket_with_table "2025-01-10T10:00:00Z"
    /\ length (requests w') = 2.
Proof.
  destruct (failed_page_fails_the_dataset full_then_error stable_argsort
              fromisoformat_iso 5 (job_for "bootstrap" ["contractors"])
              "contractors" contractors_config None [full_page] HTTPStatusError
              (world_with_table "2025-01-10T10:00:00Z" []))
    as (w' & Hp & Hr2 & _ & Hreq).
  - intros [|i] rows Hi; [|destruct i; discriminate Hi].
    injection Hi as <-. split; [reflexivity|].
    unfold full_page. rewrite length_replicate. lia.
  - reflexivity.
  - cbn [length]. lia.
  - exists w'. split; [exact Hp|]. split; [exact Hr2|]. by rewrite Hreq.
Defined.

Lemma fetch_never_returns_on_full_pages_witness :
  fetch_socrata_pages endless_source 3 "contractors" "3pee-9qhc" None fresh_world
  = None.
Proof.
  apply (fetch_never_returns_on_full_pages endless_source).
  intros q. exists full_page. split; [reflexivity|].
  unfold full_page. rewrite length_replicate. lia.
Defined.

(** ** The curated table: what is read and what is written *)

Lemma bind_ok {A B} (m : M A) (k : A -> M B) (w w1 : World) (a : A) :
  m w = Some (Ok a, w1) -> bind m k w = k a w1.
Proof. intros H. unfold bind. by rewrite H. Qed.

Lemma bind_raise {A B} (m : M A) (k : A -> M B) (w w1 : World) (e : exn) :
  m w = Some (Raise e, w1) -> bind m k w = Some (Raise e, w1).
Proof. intros H. unfold bind. by rewrite H. Qed.

Lemma prefix_app (a b c : string) :
  String.prefix (a +:+ b) (a +:+ c) = String.prefix b c.
Proof.
  induction a as [|x a IH]; [done|].
  rewrite !string_app_cons. cbn [String.prefix].
  by destruct (ascii_dec x x).
Qed.

Lemma has_char_app (c : ascii) (a b : string) :
  has_char c (a +:+ b) = has_char c a || has_char c b.
Proof.
  induction a as [|x a IH]; [done|].
  rewrite string_app_cons. cbn [has_char]. by rewrite IH, orb_assoc.
Qed.

Lemma curated_object_no_backslash (key : string) :
  has_char "\" (curated_object key) = false.
Proof.
  unfold curated_object. by rewrite !has_char_app, posix_no_backslash.
Qed.

Lemma _abs_curated_object (key : string) :
  _abs (curated_object key) = Ok (curated_object key).
Proof.
  apply _norm_rel_cases; [discriminate|apply curated_object_no_backslash|done].
Qed.

Lemma _abs_curated_dir (key : string) :
  _abs (curated_dir key) = Ok (curated_dir_object key).
Proof.
  unfold _abs, curated_dir, curated_dir_object, R2_CURATED_PREFIX.
  rewrite (string_app_cons "c" "urated"), _norm_rel_cons by done.
  by rewrite <- string_app_cons, !posix_app.
Qed.

Lemma curated_object_under_dir (key : string) :
  String.prefix (curated_dir_object key +:+ "/") (curated_object key) = true.
Proof.
  unfold curated_dir_object, curated_object.
  rewrite !string_app_assoc, !prefix_app. reflexivity.
Qed.

Lemma NoDup_singleton_of_all_eq {A} (x : A) (l : list A) :
  NoDup l -> x ∈ l -> (forall y, y ∈ l -> y = x) -> l = [x].
Proof.
  intros Hnd Hx Hall. destruct l as [|a [|b l]].
  - by apply elem_of_nil in Hx.
  - f_equal. apply Hall. left.
  - apply NoDup_cons in Hnd as [Hab _]. destruct Hab.
    rewrite (Hall a), (Hall b); [left | right; left | left].
Qed.

Lemma list__returns (prefix root : string) (w : World) :
  _abs prefix = Ok root -> exists ks, list_ prefix w = Some (Ok ks, w).
Proof.
  intros Hroot. unfold list_, bind. rewrite Hroot. cbn [lift ret].
  case_bool_decide; eauto.
Qed.

Lemma list__curated_table (key : string) (w : World) :
  only_table_under key (r2 w) ->
  is_Some (r2 w !! curated_object key) ->
  list_ (curated_dir key) w = Some (Ok [curated_object key], w).
Proof.
  intros [Hdir Honly] Hfile. unfold list_, bind.
  rewrite _abs_curated_dir. cbn [lift ret].
  rewrite bool_decide_eq_false_2 by (rewrite Hdir; by intros [? ?]).
  do 3 f_equal.
  set (ks := List.filter _ _).
  assert (ks = [curated_object key]) as ->.
  { apply NoDup_singleton_of_all_eq.
    - unfold ks. apply NoDup_ListNoDup, List.NoDup_filter, NoDup_ListNoDup,
        NoDup_fst_map_to_list.
    - apply elem_of_keys_under. split; [done|apply curated_object_under_dir].
    - intros k [Hk Hp]%elem_of_keys_under. by apply Honly. }
  cbn [fmap list_fmap]. f_equal.
  apply (posix_id _ (curated_object_no_backslash key)).
Qed.

Section CuratedTable.

Variable argsort : list (value * row) -> list (value * row).

(** X12.  A bootstrap replaces the curated table.  On a store that does
    not fail, the table written is the deduplicated delta alone: what
    the bucket held under the table's key is not read and is overwritten,
    and no other object changes. *)
Theorem bootstrap_replaces_the_curated_table (self : IngestJob) (key : string)
    (config : DatasetConfig) (df_delta out : DataFrame) (w : World) :
  write_faults w = [] ->
  upsert argsort (default "id" (pk config)) (pd_DataFrame []) df_delta = Ok out ->
  exists w',
    upsert_curated argsort self key config true df_delta w = Some (Ok tt, w')
    /\ r2 w' = <[curated_object key := Complete (Parquet out)]> (r2 w).
Proof.
  intros Hf Hup. unfold upsert_curated.
  destruct (list__returns _ _ w (_abs_curated_dir key)) as [ks Hl].
  rewrite (bind_ok _ _ _ _ _ Hl). cbn [negb andb].
  unfold bind at 1. cbn [ret]. rewrite Hup, _abs_curated_file. cbn [lift].
  unfold bind, ret, to_parquet, storage_write, log. rewrite Hf.
  eexists. split; reflexivity.
Qed.

(** X13.  An incremental run merges into the stored table.  When the
    committed table is the only object under its directory, the table
    written is the upsert of the delta into the rows that were stored;
    no other object changes. *)
Theorem incremental_merges_into_the_stored_table (self : IngestJob) (key : string)
    (config : DatasetConfig) (table df_delta out : DataFrame) (w : World) :
  write_faults w = [] ->
  only_table_under key (r2 w) ->
  r2 w !! curated_object key = Some (Complete (Parquet table)) ->
  upsert argsort (default "id" (pk config)) (pd_concat [table]) df_delta = Ok out ->
  exists w',
    upsert_curated argsort self key config false df_delta w = Some (Ok tt, w')
    /\ r2 w' = <[curated_object key := Complete (Parquet out)]> (r2 w).
Proof.
  intros Hf Honly Htable Hup. unfold upsert_curated.
  rewrite (bind_ok _ _ _ _ _ (list__curated_table key w Honly ltac:(eauto))).
  rewrite bool_decide_eq_false_2 by discriminate. cbn [negb andb read_parts].
  rewrite _abs_curated_object. cbn [lift].
  unfold bind, ret, try_except, read_parquet. rewrite Htable. cbn [app].
  rewrite Hup, _abs_curated_file. cbn [lift].
  unfold ret, to_parquet, storage_write, log. rewrite Hf.
  eexists. split; reflexivity.
Qed.

(** X14.  A stored table that does not read is replaced by the delta.
    When the object under the table's key is torn or is no parquet file,
    an incremental run logs the read error and goes on with an empty
    existing table: the table written holds the deduplicated delta alone,
    and the call returns normally. *)
Theorem unreadable_table_is_replaced_by_the_delta (self : IngestJob) (key : string)
    (config : DatasetConfig) (f : file) (df_delta out : DataFrame) (w : World) :
  write_faults w = [] ->
  only_table_under key (r2 w) ->
  r2 w !! curated_object key = Some f ->
  (forall table, f <> Complete (Parquet table)) ->
  upsert argsort (default "id" (pk config)) (pd_DataFrame []) df_delta = Ok out ->
  exists w',
    upsert_curated argsort self key config false df_delta w = Some (Ok tt, w')
    /\ r2 w' = <[curated_object key := Complete (Parquet out)]> (r2 w)
    /\ LogParquetReadError (curated_object key) ValueError ∈ logs w'.
Proof.
  intros Hf Honly Hfile Hbad Hup. unfold upsert_curated.
  rewrite (bind_ok _ _ _ _ _ (list__curated_table key w Honly ltac:(eauto))).
  rewrite bool_decide_eq_false_2 by discriminate. cbn [negb andb read_parts].
  rewrite _abs_curated_object. cbn [lift].
  assert (read_parquet (curated_object key) w = Some (Raise ValueError, w)) as Hread.
  { unfold read_parquet. rewrite Hfile.
    destruct f as [[]|]; try reflexivity. by destruct (Hbad df). }
  unfold bind, ret, try_except. rewrite Hread. unfold log at 1.
  rewrite Hup, _abs_curated_file. cbn [lift].
  unfold ret, to_parquet, storage_write, log. cbn [write_faults add_log]. rewrite Hf.
  eexists. split; [reflexivity|]. split; [reflexivity|].
  cbn [logs add_log set_r2]. set_solver.
Qed.

End CuratedTable.

Lemma only_table_under_bucket_with_table (wm : string) :
  only_table_under "contractors" (bucket_with_table wm).
Proof.
  split; [reflexivity|]. intros k Hk Hp. apply elem_of_dom in Hk.
  assert (k ∈ ["curated/contractors/_state.json";
               "curated/contractors/parquet/data.parquet"]) as Hin.
  { revert Hk. generalize k. refine (bool_decide_unpack _ _). vm_compute. exact I. }
  repeat (apply elem_of_cons in Hin as [->|Hin];
          [first [reflexivity | discriminate Hp]|]).
  by apply elem_of_nil in Hin.
Qed.

Lemma only_table_under_bucket_with_torn_table :
  only_table_under "contractors" bucket_with_torn_table.
Proof.
  split; [reflexivity|]. intros k Hk Hp. apply elem_of_dom in Hk.
  assert (k ∈ ["curated/contractors/parquet/data.parquet"]) as Hin.
  { revert Hk. generalize k. refine (bool_decide_unpack _ _). vm_compute. exact I. }
  apply list_elem_of_singleton in Hin as ->. reflexivity.
Qed.

Lemma bootstrap_replaces_the_curated_table_witness :
  exists w' out,
    upsert_curated stable_argsort (job_for "bootstrap" ["contractors"]) "contractors"
      contractors_config true (pd_DataFrame [contractor_new])
      (world_with_table "2025-01-10T10:00:00Z" [])
    = Some (Ok tt, w')
    /\ r2 w' !! "curated/contractors/parquet/data.parquet"
       = Some (Complete (Parquet out))
    /\ df_records out = [contractor_new].
Proof.
  destruct (bootstrap_replaces_the_curated_table stable_argsort
              (job_for "bootstrap" ["contractors"]) "contractors" contractors_config
              (pd_DataFrame [contractor_new]) _
              (world_with_table "2025-01-10T10:00:00Z" [])
              eq_refl ltac:(vm_compute; reflexivity)) as (w' & Hw & Hr).
  exists w'. eexists. split; [exact Hw|]. rewrite Hr.
  split; [apply lookup_insert_eq|]. vm_compute. reflexivity.
Defined.

Lemma incremental_merges_into_the_stored_table_witness :
  exists w' out,
    upsert_curated stable_argsort (job_for "incremental" ["contractors"]) "contractors"
      contractors_config false (pd_DataFrame [row_key8])
      (world_with_table "2025-01-10T10:00:00Z" [])
    = Some (Ok tt, w')
    /\ r2 w' !! "curated/contractors/parquet/data.parquet"
       = Some (Complete (Parquet out))
    /\ df_records out = [row_key8; contractor_old].
Proof.
  destruct (incremental_merges_into_the_stored_table stable_argsort
              (job_for "incremental" ["contractors"]) "contractors" contractors_config
              (pd_DataFrame [contractor_old]) (pd_DataFrame [row_key8]) _
              (world_with_table "2025-01-10T10:00:00Z" [])
              eq_refl (only_table_under_bucket_with_table _) eq_refl
              ltac:(vm_compute; reflexivity)) as (w' & Hw & Hr).
  exists w'. eexists. split; [exact Hw|]. rewrite Hr.
  split; [apply lookup_insert_eq|]. vm_compute. reflexivity.
Defined.

Lemma unreadable_table_is_replaced_by_the_delta_witness :
  exists w' out,
    upsert_curated stable_argsort (job_for "incremental" ["contractors"]) "contractors"
      contractors_config false (pd_DataFrame [contractor_new])
      (mkWorld bucket_with_torn_table ∅ [] [] [] noon)
    = Some (Ok tt, w')
    /\ r2 w' !! "curated/contractors/parquet/data.parquet"
       = Some (Complete (Parquet out))
    /\ df_records out = [contractor_new].
Proof.
  destruct (unreadable_table_is_replaced_by_the_delta stable_argsort
              (job_for "incremental" ["contractors"]) "contractors" contractors_config
              (Torn (Parquet (pd_DataFrame [contractor_old; row_key8])))
              (pd_DataFrame [contractor_new]) _
              (mkWorld bucket_with_torn_table ∅ [] [] [] noon)
              eq_refl only_table_under_bucket_with_torn_table eq_refl
              ltac:(discriminate) ltac:(vm_compute; reflexivity))
    as (w' & Hw & Hr & _).
  exists w'. eexists. split; [exact Hw|]. rewrite Hr.
  split; [apply lookup_insert_eq|]. vm_compute. reflexivity.
Defined.

(** ** The footprint of a dataset run and the watermark *)

Lemma bind_inv {A B} (m : M A) (k : A -> M B) (w w' : World) (r : result B) :
  bind m k w = Some (r, w') ->
  (exists a w1, m w = Some (Ok a, w1) /\ k a w1 = Some (r, w'))
  \/ (exists e, m w = Some (Raise e, w') /\ r = Raise e).
Proof.
  unfold bind. destruct (m w) as [[[a|e] w1]|]; intros H; [| |discriminate].
  - left. eauto.
  - right. simplify_eq. eauto.
Qed.

Lemma _abs_state_path (ds : string) : _abs (state_path ds) = Ok (state_object ds).
Proof.
  unfold _abs, state_path, state_object, R2_CURATED_PREFIX.
  rewrite (string_app_cons "c" "urated"), _norm_rel_cons by done.
  by rewrite <- string_app_cons, !posix_app.
Qed.

Lemma state_object_not_dataset_object (self : IngestJob) (ds : string) (b : bool) :
  state_object ds ∉ dataset_objects self ds b.
Proof.
  unfold dataset_objects, state_object, raw_object, meta_object, curated_object.
  rewrite !not_elem_of_cons. repeat split; try discriminate; try apply not_elem_of_nil.
  apply string_app_neq, string_app_neq. discriminate.
Qed.

Section Footprint.

Variable soda_get_json : string -> params -> result (list row).
Variable argsort : list (value * row) -> list (value * row).
Variable fromisoformat : string -> result datetime.

Lemma upsert_curated_r2 (S : string -> Prop) (self : IngestJob) (key : string)
    (config : DatasetConfig) (b : bool) (df : DataFrame) :
  ~ S (curated_object key) ->
  preserves (r2_same_on S) (upsert_curated argsort self key config b df).
Proof.
  intros HS. unfold upsert_curated. rewrite _abs_curated_file. unfold to_parquet.
  pose proof (storage_write_r2 S (curated_object key)) as Hw.
  frame.
Qed.

Lemma process_dataset_frame (fuel : nat) (self : IngestJob)
    (key : string) (config : DatasetConfig) (wm : option string)
    (w w' : World) (r : result unit) :
  process_dataset soda_get_json argsort fromisoformat fuel self key config wm w
  = Some (r, w') ->
  forall k, k ∉ dataset_objects self key (select_bootstrap self wm) ->
            r2 w' !! k = r2 w !! k.
Proof.
  set (S := fun k => k ∉ dataset_objects self key (select_bootstrap self wm)).
  assert (forall k, k ∈ dataset_objects self key (select_bootstrap self wm) -> ~ S k)
    as Hin by (intros k Hk HS; by apply HS).
  assert (preserves (r2_same_on S)
            (process_dataset soda_get_json argsort fromisoformat fuel self key
                             config wm)) as Hp; [|exact (Hp w r w')].
  pose proof (fetch_since_of_r2 fromisoformat) as H1.
  pose proof (fetch_socrata_pages_r2 soda_get_json) as H2.
  pose proof (upsert_curated_r2 S self key config) as H3.
  assert (forall data, preserves (r2_same_on S)
            (write_text (raw_key self key (select_bootstrap self wm)) data)) as H4.
  { intros data. apply (write_bytes_r2 _ _ _ _ (_abs_raw_key _ _ _));
      apply Hin; unfold dataset_objects; set_solver. }
  assert (forall data, preserves (r2_same_on S)
            (write_json (meta_key self key) data)) as H5.
  { intros data. apply (write_bytes_r2 _ _ _ _ (_abs_meta_key _ _));
      apply Hin; unfold dataset_objects; set_solver. }
  assert (~ S (curated_object key)) as H6
      by (apply Hin; unfold dataset_objects; set_solver).
  unfold process_dataset, fetch_store_normalize. frame.
Qed.

(** X15.  One pass of [process_dataset] writes to its own objects only:
    whatever the outcome, every object of the bucket other than the raw
    snapshot of this run and dataset, its metadata, their temporary
    files and the dataset's curated table is what it was before.  The
    state files, the tables of other datasets and the snapshots of
    earlier runs are among those. *)
Theorem process_dataset_writes_its_own_objects_only (fuel : nat) (self : IngestJob)
    (key : string) (config : DatasetConfig) (wm : option string)
    (w w' : World) (r : result unit) :
  process_dataset soda_get_json argsort fromisoformat fuel self key config wm w
  = Some (r, w') ->
  forall k, k ∉ dataset_objects self key (select_bootstrap self wm) ->
            r2 w' !! k = r2 w !! k.
Proof. exact (process_dataset_frame fuel self key config wm w w' r). Qed.

Lemma write_bytes_now (rel : string) (data : content) :
  preserves (unchanged now) (write_bytes rel data).
Proof.
  unfold write_bytes.
  assert (forall k c, preserves (unchanged now) (storage_write k c)) as H1
      by (intros; unfold storage_write; primitive).
  assert (forall a b, preserves (unchanged now) (storage_rename a b)) as H2
      by (intros; unfold storage_rename; primitive).
  frame.
Qed.

Lemma exists__world (rel : string) (w w' : World) (r : result bool) :
  exists_ rel w = Some (r, w') -> w' = w.
Proof.
  unfold exists_, bind. destruct (_abs rel); cbn [lift]; unfold ret, raise;
    intros; by simplify_eq.
Qed.

Lemma read_watermark_world (ds : string) (present : bool) (w w' : World)
    (r : result (option string)) :
  (if present
   then bind (read_json (state_path ds)) (fun state => lift (get_watermark state))
   else ret None) w = Some (r, w') ->
  w' = w.
Proof.
  destruct present; [|unfold ret; intros; by simplify_eq].
  unfold read_json, bind. rewrite _abs_state_path. cbn [lift ret].
  destruct (r2 w !! state_object ds) as [[[]|]|]; cbn [get_watermark lift];
    unfold ret, raise; intros; by simplify_eq.
Qed.

Variable registry : gmap string DatasetConfig.

Lemma run_dataset_state_file (fuel : nat) (self : IngestJob) (ds : string)
    (config : DatasetConfig) (w w' : World) (r : result unit) :
  registry !! ds = Some config ->
  run_dataset soda_get_json argsort fromisoformat registry fuel self ds w
  = Some (r, w') ->
  (r = Ok tt
   /\ r2 w' !! state_object ds
      = Some (Complete (StateJson (Some (isoformat (now w'))) (run_id self))))
  \/ ((exists e, r = Raise e)
      /\ r2 w' !! state_object ds = r2 w !! state_object ds).
Proof.
  intros Hreg H. unfold run_dataset in H. rewrite Hreg in H.
  apply bind_inv in H as [(present & w0 & Hex & H)|(e & Hex & ->)].
  2: { apply exists__world in Hex as ->. right. eauto. }
  apply exists__world in Hex as ->.
  apply bind_inv in H as [(wm & w0 & Hwm & H)|(e & Hwm & ->)].
  2: { apply read_watermark_world in Hwm as ->. right. eauto. }
  apply read_watermark_world in Hwm as ->.
  apply bind_inv in H as [([] & w1 & Hp & H)|(e & Hp & ->)].
  2: { right. split; [eauto|].
       apply (process_dataset_frame _ _ _ _ _ _ _ _ Hp).
       apply state_object_not_dataset_object. }
  pose proof (process_dataset_frame _ _ _ _ _ _ _ _ Hp _
                (state_object_not_dataset_object self ds _)) as Hsame.
  unfold bind at 1, utcnow at 1 in H.
  pose proof (write_bytes_now _ _ _ _ _ H) as Hnow. unfold unchanged in Hnow.
  destruct (write_bytes_outcome _ _ _ _ _ _ (_abs_state_path ds) H)
    as [[-> Hst]|(-> & Hst & _)].
  - left. split; [done|]. by rewrite Hnow.
  - right. split; [eauto|]. by rewrite Hst.
Qed.

(** X16.  The watermark moves exactly when the dataset went through.
    When [run] has handled a configured dataset, either the pass
    returned and the state file holds the clock reading taken after it,
    with the run id, or the pass raised and the state file is what it
    was before the pass: the old watermark, or still no file. *)
Theorem watermark_moves_only_on_success (fuel : nat) (self : IngestJob) (ds : string)
    (config : DatasetConfig) (w w' : World) (r : result unit) :
  registry !! ds = Some config ->
  run_dataset soda_get_json argsort fromisoformat registry fuel self ds w
  = Some (r, w') ->
  (r = Ok tt
   /\ r2 w' !! state_object ds
      = Some (Complete (StateJson (Some (isoformat (now w'))) (run_id self))))
  \/ ((exists e, r = Raise e)
      /\ r2 w' !! state_object ds = r2 w !! state_object ds).
Proof. apply run_dataset_state_file. Qed.

End Footprint.

Lemma process_dataset_writes_its_own_objects_only_witness :
  exists w',
    process_dataset one_row_source stable_argsort fromisoformat_iso 3
      (job_for "incremental" ["contractors"]) "contractors" contractors_config
      (Some "2025-01-10T10:00:00Z") (world_with_table "2025-01-10T10:00:00Z" [])
    = Some (Ok tt, w')
    /\ r2 w' !! "curated/contractors/_state.json"
       = Some (Complete (StateJson (Some "2025-01-10T10:00:00Z") "run0")).
Proof.
  destruct example_incremental_run as [w' Hrun].
  exists w'. split; [exact Hrun|].
  rewrite (process_dataset_writes_its_own_objects_only _ _ _ _ _ _ _ _ _ _ _ Hrun
             "curated/contractors/_state.json").
  - reflexivity.
  - refine (bool_decide_unpack _ _). vm_compute. exact I.
Defined.

Lemma watermark_moves_only_on_success_witness :
  exists w',
    run_dataset one_row_source stable_argsort fromisoformat_iso
      (DATASET_CONFIG rows_extractor) 3 (job_for "auto" ["contractors"])
      "contractors" (world_with_table "2025-01-10T10:00:00Z" [])
    = Some (Ok tt, w')
    /\ r2 w' !! "curated/contractors/_state.json"
       = Some (Complete (StateJson (Some "2025-01-10T12:00:00") "run1")).
Proof.
  eassert (run_dataset one_row_source stable_argsort fromisoformat_iso
             (DATASET_CONFIG rows_extractor) 3 (job_for "auto" ["contractors"])
             "contractors" (world_with_table "2025-01-10T10:00:00Z" [])
           = Some (Ok tt, _)) as Hrun by (vm_compute; reflexivity).
  eexists. split; [exact Hrun|].
  destruct (watermark_moves_only_on_success one_row_source stable_argsort
              fromisoformat_iso (DATASET_CONFIG rows_extractor) 3
              (job_for "auto" ["contractors"]) "contractors" contractors_config
              _ _ _ ltac:(vm_compute; reflexivity) Hrun)
    as [[_ Hst]|[[e He] _]]; [|discriminate He].
  exact Hst.
Defined.

(** ** From one run to the next: the watermark and the filter *)

Lemma str_replace_absent (c : ascii) (by_ s : string) :
  has_char c s = false -> str_replace c by_ s = s.
Proof.
  induction s as [|a s IH]; [done|]. cbn [has_char str_replace].
  intros [Ha Hs]%orb_false_iff. by rewrite Ha, IH.
Qed.

Lemma digit_char_not_Z (d : Z) : Ascii.eqb (digit_char d) "Z" = false.
Proof.
  unfold digit_char.
  assert (Z.to_nat (d mod 10) < 10)%nat as Hlt
      by (pose proof (Z.mod_pos_bound d 10); lia).
  generalize dependent (Z.to_nat (d mod 10)). intros k Hlt.
  do 10 (destruct k as [|k]; [reflexivity|]). lia.
Qed.

Lemma zero_padded_no_Z (n : nat) (z : Z) : has_char "Z" (zero_padded n z) = false.
Proof.
  revert z. induction n as [|n IH]; intros z; [done|].
  cbn [zero_padded]. rewrite has_char_app, IH. cbn [has_char].
  by rewrite digit_char_not_Z.
Qed.

Lemma isoformat_no_Z (dt : datetime) : has_char "Z" (isoformat dt) = false.
Proof.
  unfold isoformat, format_offset.
  destruct (microsecond dt =? 0)%Z, (tzinfo dt) as [off|];
    try destruct (off <? 0)%Z;
    rewrite ?has_char_app, ?zero_padded_no_Z; reflexivity.
Qed.

Lemma where_clause_isoformat (dt : datetime) :
  where_clause (Some (isoformat dt)) = Some (":updated_at > '" +:+ isoformat dt +:+ "'").
Proof. unfold where_clause, truthy. by rewrite isoformat_nonempty. Qed.

Lemma select_bootstrap_true (self : IngestJob) (wm : option string) :
  mode self = "bootstrap" \/ (mode self = "auto" /\ truthy wm = false) ->
  select_bootstrap self wm = true.
Proof.
  unfold select_bootstrap. intros [->|[-> ->]]; reflexivity.
Qed.

Lemma select_bootstrap_false (self : IngestJob) (wm : option string) :
  mode self <> "bootstrap" -> truthy wm = true ->
  select_bootstrap self wm = false.
Proof.
  intros Hm%String.eqb_neq Hwm. unfold select_bootstrap.
  rewrite Hm, Hwm. by destruct (String.eqb (mode self) "auto").
Qed.

Section Watermarks.

Variable soda_get_json : string -> params -> result (list row).
Variable argsort : list (value * row) -> list (value * row).
Variable fromisoformat : string -> result datetime.
Variable registry : gmap string DatasetConfig.

(** X17.  The watermark a run stores is the one the next run filters
    on.  After a pass over a dataset has returned, a later pass in any
    mode other than [bootstrap], started on a bucket that still holds
    that state file, sends at least one request, and every request it
    sends asks for the rows updated after the stored clock reading minus
    the safety lag; provided the parser reads back what [isoformat]
    wrote and the lagged date exists. *)
Theorem stored_watermark_is_the_next_filter (fuel1 fuel2 : nat)
    (self1 self2 : IngestJob) (ds : string) (config : DatasetConfig)
    (w0 w1 w1' w2 : World) (r : result unit) (t_lag : datetime) :
  registry !! ds = Some config ->
  run_dataset soda_get_json argsort fromisoformat registry fuel1 self1 ds w0
  = Some (Ok tt, w1) ->
  r2 w1' !! state_object ds = r2 w1 !! state_object ds ->
  mode self2 <> "bootstrap" ->
  fromisoformat (isoformat (now w1)) = Ok (now w1) ->
  sub_hours (now w1) SAFETY_LAG_HOURS = Ok t_lag ->
  run_dataset soda_get_json argsort fromisoformat registry fuel2 self2 ds w1'
  = Some (r, w2) ->
  exists q new,
    requests w2 = requests w1' ++ q :: new
    /\ Forall (fun q => q.1 = soda_id config
                        /\ p_where q.2
                           = Some (":updated_at > '" +:+ isoformat t_lag +:+ "'"))
              (q :: new).
Proof.
  intros Hreg Hrun1 Hsame Hmode Hparse Hlag Hrun2.
  destruct (run_dataset_state_file _ _ _ _ _ _ _ _ _ _ _ Hreg Hrun1)
    as [[_ Hst]|[[e He] _]]; [|discriminate He].
  rewrite <- Hsame in Hst. set (iso := isoformat (now w1)) in *.
  assert (truthy (Some iso) = true) as Htruthy
      by (unfold truthy, iso; by rewrite isoformat_nonempty).
  assert (where_clause (since_of fromisoformat (select_bootstrap self2 (Some iso))
                                 (Some iso))
          = Some (":updated_at > '" +:+ isoformat t_lag +:+ "'")) as Hwh.
  { rewrite (select_bootstrap_false _ _ Hmode Htruthy). unfold since_of.
    rewrite Htruthy. cbn [negb andb].
    rewrite (lagged_ok fromisoformat iso (now w1) t_lag).
    - apply where_clause_isoformat.
    - unfold iso. by rewrite (str_replace_absent _ _ _ (isoformat_no_Z _)).
    - exact Hlag. }
  unfold run_dataset in Hrun2. rewrite Hreg in Hrun2.
  assert (exists_ (state_path ds) w1' = Some (Ok true, w1')) as Hex.
  { unfold exists_, bind. rewrite _abs_state_path. cbn [lift ret].
    unfold path_exists. rewrite Hst.
    by rewrite bool_decide_eq_true_2 by eauto. }
  rewrite (bind_ok _ _ _ _ _ Hex) in Hrun2.
  assert (read_json (state_path ds) w1'
          = Some (Ok (StateJson (Some iso) (run_id self1)), w1')) as Hread.
  { unfold read_json, bind. rewrite _abs_state_path. cbn [lift ret].
    by rewrite Hst. }
  unfold bind at 1 2 in Hrun2. rewrite Hread in Hrun2.
  cbn [get_watermark lift ret] in Hrun2.
  pose proof (process_dataset_sends soda_get_json argsort fromisoformat fuel2 self2
                ds config (Some iso)) as Hsends.
  rewrite Hwh in Hsends.
  refine (sends_bind_l _ _ _ Hsends _ w1' r w2 Hrun2).
  intros _. frame.
Qed.

(** X18.  A bootstrap asks for everything.  In mode [bootstrap], and in
    mode [auto] when there is no watermark or an empty one, the pass
    sends at least one request and none of its requests carries a
    filter, whatever watermark is stored. *)
Theorem bootstrap_fetch_is_unfiltered (fuel : nat) (self : IngestJob) (key : string)
    (config : DatasetConfig) (wm : option string) (w w' : World) (r : result unit) :
  mode self = "bootstrap" \/ (mode self = "auto" /\ truthy wm = false) ->
  process_dataset soda_get_json argsort fromisoformat fuel self key config wm w
  = Some (r, w') ->
  exists q new,
    requests w' = requests w ++ q :: new
    /\ Forall (fun q => q.1 = soda_id config /\ p_where q.2 = None) (q :: new).
Proof.
  intros Hmode Hrun.
  pose proof (process_dataset_sends soda_get_json argsort fromisoformat fuel self
                key config wm) as Hsends.
  rewrite (select_bootstrap_true _ _ Hmode) in Hsends.
  assert (since_of fromisoformat true wm = None) as Hnone
      by (unfold since_of; by destruct wm).
  rewrite Hnone in Hsends. exact (Hsends w r w' Hrun).
Qed.

End Watermarks.

Lemma stored_watermark_is_the_next_filter_witness :
  exists w1 w2,
    run_dataset one_row_source stable_argsort fromisoformat_iso
      (DATASET_CONFIG rows_extractor) 3 (job_for "auto" ["contractors"])
      "contractors" fresh_world
    = Some (Ok tt, w1)
    /\ run_dataset one_row_source stable_argsort fromisoformat_iso
         (DATASET_CONFIG rows_extractor) 3 (job_for "auto" ["contractors"])
         "contractors" w1
       = Some (Ok tt, w2)
    /\ exists q new,
         requests w2 = requests w1 ++ q :: new
         /\ Forall (fun q => q.1 = "3pee-9qhc"
                             /\ p_where q.2 = Some ":updated_at > '2025-01-10T10:00:00'")
                   (q :: new).
Proof.
  eassert (run_dataset one_row_source stable_argsort fromisoformat_iso
             (DATASET_CONFIG rows_extractor) 3 (job_for "auto" ["contractors"])
             "contractors" fresh_world
           = Some (Ok tt, _)) as Hrun1 by (vm_compute; reflexivity).
  match type of Hrun1 with
  | _ = Some (_, ?w1) =>
      eassert (run_dataset one_row_source stable_argsort fromisoformat_iso
                 (DATASET_CONFIG rows_extractor) 3 (job_for "auto" ["contractors"])
                 "contractors" w1
               = Some (Ok tt, _)) as Hrun2 by (vm_compute; reflexivity)
  end.
  eexists. eexists. split; [exact Hrun1|]. split; [exact Hrun2|].
  exact (stored_watermark_is_the_next_filter one_row_source stable_argsort
           fromisoformat_iso (DATASET_CONFIG rows_extractor) 3 3
           (job_for "auto" ["contractors"]) (job_for "auto" ["contractors"])
           "contractors" contractors_config _ _ _ _ _
           (mkDatetime 2025 1 10 10 0 0 0 None)
           ltac:(vm_compute; reflexivity) Hrun1 eq_refl ltac:(discriminate)
           ltac:(vm_compute; reflexivity) ltac:(vm_compute; reflexivity) Hrun2).
Defined.

Lemma bootstrap_fetch_is_unfiltered_witness :
  exists w',
    process_dataset one_row_source stable_argsort fromisoformat_iso 3
      (job_for "bootstrap" ["contractors"]) "contractors" contractors_config
      (Some "2025-01-10T10:00:00Z") (world_with_table "2025-01-10T10:00:00Z" [])
    = Some (Ok tt, w')
    /\ exists q new,
         requests w' = q :: new
         /\ Forall (fun q => q.1 = "3pee-9qhc" /\ p_where q.2 = None) (q :: new).
Proof.
  assert (exists w', process_dataset one_row_source stable_argsort fromisoformat_iso 3
            (job_for "bootstrap" ["contractors"]) "contractors" contractors_config
            (Some "2025-01-10T10:00:00Z") (world_with_table "2025-01-10T10:00:00Z" [])
          = Some (Ok tt, w')) as [w' Hrun] by (eexists; vm_compute; reflexivity).
  exists w'. split; [exact Hrun|].
  exact (bootstrap_fetch_is_unfiltered one_row_source stable_argsort
           fromisoformat_iso 3 (job_for "bootstrap" ["contractors"]) "contractors"
           contractors_config (Some "2025-01-10T10:00:00Z") _ _ _
           (or_introl eq_refl) Hrun).
Defined.

(** ** The insights of a run *)

Lemma string_app_inv_length (a c b d : string) :
  String.length a = String.length c -> a +:+ b = c +:+ d -> a = c /\ b = d.
Proof.
  revert c. induction a as [|x a IH]; intros [|y c] Hlen H; try discriminate Hlen.
  - done.
  - rewrite !string_app_cons in H. injection H as -> H.
    destruct (IH c) as [-> ->]; [by injection Hlen|done|done].
Qed.

Lemma string_app_suffix_neq (a c b d : string) :
  String.length b = String.length d -> b <> d -> a +:+ b <> c +:+ d.
Proof.
  intros Hlen Hne H. apply Hne.
  apply (string_app_inv_length a c b d); [|done].
  apply (f_equal String.length) in H. rewrite !string_length_app in H. lia.
Qed.

Lemma _abs_velocity (self : IngestJob) :
  _abs ((R2_INSIGHTS_PREFIX +:+ "/" +:+ run_id self) +:+ "/summaries/velocity.json")
  = Ok (velocity_object self).
Proof.
  unfold _abs, velocity_object, R2_INSIGHTS_PREFIX. rewrite !string_app_assoc.
  rewrite (string_app_cons "i" "nsights"), _norm_rel_cons by done.
  by rewrite <- string_app_cons, !posix_app.
Qed.

Lemma _abs_catalog (self : IngestJob) :
  _abs ((R2_INSIGHTS_PREFIX +:+ "/" +:+ run_id self) +:+ "/catalog.json")
  = Ok (catalog_object self).
Proof.
  unfold _abs, catalog_object, R2_INSIGHTS_PREFIX. rewrite !string_app_assoc.
  rewrite (string_app_cons "i" "nsights"), _norm_rel_cons by done.
  by rewrite <- string_app_cons, !posix_app.
Qed.

Lemma _abs_insights_dir (self : IngestJob) :
  _abs (R2_INSIGHTS_PREFIX +:+ "/" +:+ run_id self)
  = Ok ("insights/" +:+ posix (run_id self)).
Proof.
  unfold _abs, R2_INSIGHTS_PREFIX.
  rewrite (string_app_cons "i" "nsights"), _norm_rel_cons by done.
  by rewrite <- string_app_cons, !posix_app.
Qed.

Lemma velocity_neq_latest (self : IngestJob) :
  velocity_object self <> latest_catalog_object.
Proof.
  unfold velocity_object, latest_catalog_object.
  change "insights/latest/catalog.json" with ("insights/lates" +:+ "t/catalog.json").
  change "/summaries/velocity.json" with ("/summaries" +:+ "/velocity.json").
  rewrite <- !string_app_assoc. by apply string_app_suffix_neq.
Qed.

Lemma velocity_neq_latest_tmp (self : IngestJob) :
  velocity_object self <> latest_catalog_object +:+ ".tmp".
Proof.
  unfold velocity_object, latest_catalog_object.
  change ("insights/latest/catalog.json" +:+ ".tmp")
    with ("insights/latest/catalog.json.tm" +:+ "p").
  change "/summaries/velocity.json" with ("/summaries/velocity.jso" +:+ "n").
  rewrite <- !string_app_assoc. by apply string_app_suffix_neq.
Qed.

Lemma catalog_neq_latest_tmp (self : IngestJob) :
  catalog_object self <> latest_catalog_object +:+ ".tmp".
Proof.
  unfold catalog_object, latest_catalog_object.
  change ("insights/latest/catalog.json" +:+ ".tmp")
    with ("insights/latest/catalog.json.tm" +:+ "p").
  change "/catalog.json" with ("/catalog.jso" +:+ "n").
  rewrite <- !string_app_assoc. by apply string_app_suffix_neq.
Qed.

Lemma velocity_neq_catalog (self : IngestJob) :
  velocity_object self <> catalog_object self.
Proof.
  unfold velocity_object, catalog_object.
  do 2 apply string_app_neq. discriminate.
Qed.

Lemma velocity_neq_catalog_tmp (self : IngestJob) :
  velocity_object self <> catalog_object self +:+ ".tmp".
Proof.
  unfold velocity_object, catalog_object. rewrite !string_app_assoc.
  do 2 apply string_app_neq. discriminate.
Qed.

(** X19.  Without a readable contractors table there are no insights
    and no error.  When the object under the table's key is missing,
    torn or no parquet file, [calculate_insights] returns normally and
    the bucket is what it was, whichever datasets the run was for. *)
Theorem insights_need_the_contractors_table (self : IngestJob) (w : World) :
  (forall df, r2 w !! contractors_table <> Some (Complete (Parquet df))) ->
  exists w', calculate_insights self w = Some (Ok tt, w') /\ r2 w' = r2 w.
Proof.
  intros Hno. unfold calculate_insights.
  change (_abs (R2_CURATED_PREFIX +:+ "/contractors/parquet/data.parquet"))
    with (Ok contractors_table).
  unfold bind at 1, try_except, bind at 1. cbn [lift ret].
  destruct (path_exists contractors_table (r2 w)); cbn [negb].
  - unfold bind, read_parquet.
    destruct (r2 w !! contractors_table) as [[[]|]|] eqn:E;
      try (eexists; split; reflexivity).
    by destruct (Hno df).
  - eexists. split; reflexivity.
Qed.

Lemma insights_need_the_contractors_table_witness :
  exists w',
    calculate_insights (job_for "auto" ["contractors"])
                       (mkWorld bucket_with_torn_table ∅ [] [] [] noon)
    = Some (Ok tt, w')
    /\ r2 w' = bucket_with_torn_table.
Proof.
  apply (insights_need_the_contractors_table (job_for "auto" ["contractors"])
           (mkWorld bucket_with_torn_table ∅ [] [] [] noon)).
  intros df H. vm_compute in H. discriminate H.
Defined.

(** X20.  What the insights of a run are.  When the contractors table
    reads and the store does not fail, [calculate_insights] returns and
    leaves three documents: the velocity summary of the run, whose count
    is the number of rows of the table, the catalog of the run, which
    lists the datasets the run was for, and the same catalog under
    [latest]; the table itself is not touched. *)
Theorem insights_of_a_run (self : IngestJob) (df : DataFrame) (w : World) :
  r2 w !! contractors_table = Some (Complete (Parquet df)) ->
  write_faults w = [] ->
  exists w',
    calculate_insights self w = Some (Ok tt, w')
    /\ r2 w' !! velocity_object self
       = Some (Complete (VelocityJson "computed" (length (df_records df))))
    /\ r2 w' !! catalog_object self
       = Some (Complete (CatalogJson (target_datasets self) (isoformat (now w))))
    /\ r2 w' !! latest_catalog_object
       = Some (Complete (CatalogJson (target_datasets self) (isoformat (now w))))
    /\ r2 w' !! contractors_table = Some (Complete (Parquet df)).
Proof.
  intros Htable Hf. unfold calculate_insights.
  change (_abs (R2_CURATED_PREFIX +:+ "/contractors/parquet/data.parquet"))
    with (Ok contractors_table).
  unfold bind at 1, try_except, bind at 1. cbn [lift ret].
  assert (path_exists contractors_table (r2 w) = true) as ->.
  { unfold path_exists. by rewrite bool_decide_eq_true_2 by eauto. }
  cbn [negb]. unfold bind at 1, read_parquet. rewrite Htable. cbn [ret].
  unfold mkdirs. rewrite _abs_insights_dir. cbn [lift]. unfold bind at 1 2. cbn [ret].
  unfold write_json, write_text.
  rewrite (bind_ok _ _ _ _ _ (write_bytes_ok _ _ _ w (_abs_velocity self) Hf)).
  unfold bind at 1, utcnow. cbn [now set_r2].
  rewrite (bind_ok _ _ _ _ _ (write_bytes_ok _ _ _ (set_r2 _ w) (_abs_catalog self) Hf)).
  rewrite (write_bytes_ok (R2_INSIGHTS_PREFIX +:+ "/latest/catalog.json")
             latest_catalog_object _ (set_r2 _ (set_r2 _ w)) eq_refl Hf).
  eexists. split; [reflexivity|]. cbn [r2 set_r2].
  split; [|split; [|split]].
  - rewrite (stored_lookup_ne _ _ _ _ (velocity_neq_latest self)
               (velocity_neq_latest_tmp self)).
    rewrite (stored_lookup_ne _ _ _ _ (velocity_neq_catalog self)
               (velocity_neq_catalog_tmp self)).
    apply stored_lookup_eq.
  - destruct (decide (catalog_object self = latest_catalog_object)) as [->|Hne].
    + apply stored_lookup_eq.
    + rewrite stored_lookup_ne by (done || apply catalog_neq_latest_tmp).
      apply stored_lookup_eq.
  - apply stored_lookup_eq.
  - rewrite !stored_lookup_ne by discriminate. exact Htable.
Qed.

Lemma insights_of_a_run_witness :
  exists w',
    calculate_insights (job_for "auto" ["contractors"; "permits"])
                       (world_with_table "2025-01-10T10:00:00Z" [])
    = Some (Ok tt, w')
    /\ r2 w' !! "insights/run1/summaries/velocity.json"
       = Some (Complete (VelocityJson "computed" 1))
    /\ r2 w' !! "insights/latest/catalog.json"
       = Some (Complete (CatalogJson ["contractors"; "permits"] "2025-01-10T12:00:00")).
Proof.
  destruct (insights_of_a_run (job_for "auto" ["contractors"; "permits"])
              (pd_DataFrame [contractor_old])
              (world_with_table "2025-01-10T10:00:00Z" []) eq_refl eq_refl)
    as (w' & Hrun & Hv & _ & Hl & _).
  exists w'. split; [exact Hrun|]. split; [exact Hv|exact Hl].
Defined.
